(** * The War Games (app.py): a shallow embedding and its properties

    The program is one Streamlit script.  Its state lives in
    [st.session_state] (a dictionary), it talks to the user through
    [st.error], [st.info], ... and to the network through
    [pd.read_excel].  The embedding threads one [World] through every
    function of the script: the session dictionary, the list of
    everything emitted so far, the memo table of [st.cache_data], the
    clock and the network.  Python exceptions are values of [outcome].

    Strings are byte strings (UTF-8).  All separators the script looks
    for are ASCII, and an ASCII byte never occurs inside a multi-byte
    UTF-8 sequence, so substring tests and splits agree with Python's. *)

From Stdlib Require Import ZArith String Ascii DecimalString.
From stdpp Require Import gmap strings list fin_maps.

Local Open Scope Z_scope.

(** ** Python strings *)

Module PyStr.

(** [needle in hay] *)
Fixpoint contains (needle hay : string) : bool :=
  String.prefix needle hay ||
  match hay with
  | EmptyString => false
  | String _ rest => contains needle rest
  end.

(** [s.split(sep)] for a non-empty [sep]: cut at every occurrence of
    [sep], left to right, occurrences not overlapping.  [skip] counts the
    bytes of a separator that was just recognised and is still to be
    dropped. *)
Fixpoint split_go (sep : string) (skip : nat) (s : string) : list string :=
  match s with
  | EmptyString => [EmptyString]
  | String c rest =>
      match skip with
      | S k => split_go sep k rest
      | O =>
          if String.prefix sep s
          then EmptyString :: split_go sep (Nat.pred (String.length sep)) rest
          else match split_go sep 0 rest with
               | [] => [String c EmptyString]
               | piece :: pieces => String c piece :: pieces
               end
      end
  end.

Definition split (sep s : string) : list string := split_go sep 0 s.

(** [str(n)] for an integer *)
Definition str_int (n : Z) : string := NilZero.string_of_int (Z.to_int n).

(** a string is truthy when it is not empty *)
Definition truthy (s : string) : bool :=
  match s with EmptyString => false | _ => true end.

Definition newline : string := String (ascii_of_nat 10) EmptyString.

End PyStr.

(** ** Exceptions and the script monad *)

(** The exceptions the script can meet.  [ReadError] stands for whatever
    [pd.read_excel] raises (URLError, HTTPError, BadZipFile, ValueError,
    ...) and carries that exception's text.  [StopException] is what
    [st.stop()] raises; in Streamlit it derives from BaseException, not
    from Exception. *)
Inductive Exception :=
| IndexError (msg : string)
| KeyError (key : string)
| AttributeError (msg : string)
| TypeError (msg : string)
| ReadError (msg : string)
| StopException.

(** [isinstance(e, Exception)]: what an [except Exception] clause catches *)
Definition is_Exception (e : Exception) : bool :=
  match e with
  | StopException => false
  | _ => true
  end.

(** [str(e)] *)
Definition str_exc (e : Exception) : string :=
  match e with
  | IndexError msg => msg
  | KeyError key => "'" +:+ key +:+ "'"
  | AttributeError msg => msg
  | TypeError msg => msg
  | ReadError msg => msg
  | StopException => EmptyString
  end.

Inductive outcome (A : Type) :=
| Returned (a : A)
| Raised (e : Exception).
Arguments Returned {A} a.
Arguments Raised {A} e.

(** What the script emits: Streamlit elements, log lines, and the
    download that [pd.read_excel] performs on a URL. *)
Inductive Event :=
| st_error (msg : string)
| st_info (msg : string)
| st_success (msg : string)
| st_warning (msg : string)
| st_balloons
| logger_debug (msg : string)
| http_get (url : string).

(** ** Data *)

(** A cell value of the loaded sheet; a missing cell (NaN) is [None].
    Floats and dates are left out: the script treats every non-missing
    value alike. *)
Inductive scalar :=
| SStr (s : string)
| SInt (n : Z).

Definition str_scalar (v : scalar) : string :=
  match v with
  | SStr s => s
  | SInt n => PyStr.str_int n
  end.

(** The sheet as [pd.read_excel] returns it: [len(df)] and the columns
    by header (read_excel keeps headers unique). *)
Record DataFrame := {
  df_len : nat;
  df_columns : gmap string (list (option scalar))
}.

(** One row of a team table; [None] is NaN. *)
Record FactorRow := {
  Fattore : option string;
  Valore : option Z;
  Barra : option Z
}.

(** What [st.data_editor] keeps under its key: the pending edits, row
    label to a dictionary from column name to new value, in insertion
    order. *)
Record editor_state := {
  edited_rows : option (list (Z * gmap string (option Z)))
}.

(** Values held in [st.session_state].  A team table is its rows in
    order, each with its index label. *)
Inductive ss_value :=
| VTeam (df : list (Z * FactorRow))
| VData (data : option DataFrame)
| VEditor (ed : editor_state).

Record CacheEntry := {
  ce_value : option DataFrame;
  ce_time : Z
}.

Record World := {
  session_state : gmap string ss_value;
  shown : list Event;
  cache : gmap string CacheEntry;
  now : Z;
  net : string -> string + DataFrame
}.

Definition Py (A : Type) : Type := World -> World * outcome A.

Definition ret {A} (a : A) : Py A := fun w => (w, Returned a).

Definition raise {A} (e : Exception) : Py A := fun w => (w, Raised e).

Definition bind {A B} (m : Py A) (k : A -> Py B) : Py B :=
  fun w =>
    match m w with
    | (w', Returned a) => k a w'
    | (w', Raised e) => (w', Raised e)
    end.

Notation "x <- m ;; k" := (bind m (fun x => k))
  (at level 100, m at next level, right associativity).
Notation "m ;;; k" := (bind m (fun _ => k))
  (at level 100, right associativity).

(** [try: body / except Exception as e: handler(e)] *)
Definition try_except {A} (body : Py A) (handler : Exception -> Py A) : Py A :=
  fun w =>
    match body w with
    | (w', Returned a) => (w', Returned a)
    | (w', Raised e) => if is_Exception e then handler e w' else (w', Raised e)
    end.

Definition with_session (f : gmap string ss_value -> gmap string ss_value) (w : World) : World :=
  {| session_state := f (session_state w); shown := shown w;
     cache := cache w; now := now w; net := net w |}.

Definition with_shown (f : list Event -> list Event) (w : World) : World :=
  {| session_state := session_state w; shown := f (shown w);
     cache := cache w; now := now w; net := net w |}.

Definition with_cache (f : gmap string CacheEntry -> gmap string CacheEntry) (w : World) : World :=
  {| session_state := session_state w; shown := shown w;
     cache := f (cache w); now := now w; net := net w |}.

(** The part of the world the script does not control: the time and the
    state of the network at the next interaction. *)
Definition at_time (t : Z) (n : string -> string + DataFrame) (w : World) : World :=
  {| session_state := session_state w; shown := shown w;
     cache := cache w; now := t; net := n |}.

Definition emit (ev : Event) : Py unit :=
  fun w => (with_shown (fun evs => evs ++ [ev]) w, Returned tt).

(** [key in st.session_state] *)
Definition in_session (key : string) : Py bool :=
  fun w => (w, Returned (bool_decide (is_Some (session_state w !! key)))).

(** [st.session_state.key] *)
Definition get_session (key : string) : Py ss_value :=
  fun w =>
    match session_state w !! key with
    | Some v => (w, Returned v)
    | None => (w, Raised (AttributeError ("st.session_state has no attribute " +:+ key)))
    end.

(** [st.session_state.key = v] *)
Definition set_session (key : string) (v : ss_value) : Py unit :=
  fun w => (with_session (insert key v) w, Returned tt).

(** [l[i]] on a Python list: negative indices count from the end *)
Definition py_getitem {A} (l : list A) (i : Z) : outcome A :=
  let n := Z.of_nat (length l) in
  let j := if i <? 0 then i + n else i in
  if (0 <=? j) && (j <? n)
  then match l !! Z.to_nat j with
       | Some x => Returned x
       | None => Raised (IndexError "list index out of range")
       end
  else Raised (IndexError "list index out of range").

Definition lift {A} (o : outcome A) : Py A := fun w => (w, o).

(** [for x in xs: body(x)] *)
Fixpoint for_each {A} (xs : list A) (body : A -> Py unit) : Py unit :=
  match xs with
  | [] => ret tt
  | x :: rest => body x ;;; for_each rest body
  end.

(** [d[key]] on a dictionary *)
Definition dict_getitem {V} (d : gmap string V) (key : string) : outcome V :=
  match d !! key with
  | Some v => Returned v
  | None => Raised (KeyError key)
  end.

(** ** initialize_state (lines 13-33) *)

Definition default_Fattore : list string :=
  ["👤 Popolazione"; "🥫 Cibo"; "💰 Finanze"; "🚑 Ospedali"; "🎒 Scuole";
   "🔋 Centrali Elettriche"; "⛪ Luoghi di Culto"; "🫂 Solidarietà"].

Definition default_Valore : list Z := replicate 8 100.

Definition default_Barra : list Z := replicate 8 100.

(** [pd.DataFrame] on the dictionary of the three columns [f], [v] and
    [b], which have one length in the script: a fresh table, rows
    labelled 0, 1, 2, ... *)
Definition pd_DataFrame (f : list string) (v b : list Z) : list (Z * FactorRow) :=
  imap (fun i '(name, (val, bar)) =>
          (Z.of_nat i, {| Fattore := Some name; Valore := Some val; Barra := Some bar |}))
       (zip f (zip v b)).

Definition default_data : list (Z * FactorRow) :=
  pd_DataFrame default_Fattore default_Valore default_Barra.

Definition initialize_state : Py unit :=
  has1 <- in_session "team1_df" ;;
  (if negb has1 then set_session "team1_df" (VTeam default_data) else ret tt) ;;;
  has2 <- in_session "team2_df" ;;
  (if negb has2 then set_session "team2_df" (VTeam default_data) else ret tt) ;;;
  has3 <- in_session "imprevisti_df" ;;
  (if negb has3 then set_session "imprevisti_df" (VData None) else ret tt).

(** ** load_data_from_gdrive (lines 36-65) *)

(** [pd.read_excel(url, engine='openpyxl')]: one download, then the
    parsed sheet or the exception of the download or of the parser *)
Definition pd_read_excel (url : string) : Py DataFrame :=
  emit (http_get url) ;;;
  fun w =>
    match net w url with
    | inr df => (w, Returned df)
    | inl msg => (w, Raised (ReadError msg))
    end.

Definition export_url_of (file_id : string) : string :=
  "https://docs.google.com/spreadsheets/d/" +:+ file_id +:+ "/export?format=xlsx".

(** the export URL for what follows [/d/] in the sharing link *)
Definition export_url_after_d (rest : string) : string :=
  export_url_of (List.hd EmptyString (PyStr.split "/" rest)).

Definition msg_invalid_url : string :=
  "URL non valido. Assicurati sia un link Google Sheet.".

Definition msg_missing_column : string :=
  "Errore: Il file Excel DEVE avere una colonna chiamata 'imprevisto'.".

Definition msg_load_failed (e : Exception) : string :=
  "Errore nel caricamento o lettura del file: " +:+ str_exc e.

Definition msg_sharing_hint : string :=
  "Assicurati che il link di condivisione sia impostato su 'Chiunque abbia il link' -> 'Visualizzatore'.".

(** The function body, without its decorator. *)
Definition load_data_from_gdrive (url : string) : Py (option DataFrame) :=
  try_except
    (if negb (PyStr.contains "google.com" url)
     then emit (st_error msg_invalid_url) ;;; ret None
     else
       rest <- lift (py_getitem (PyStr.split "/d/" url) 1) ;;
       file_id <- lift (py_getitem (PyStr.split "/" rest) 0) ;;
       let export_url := export_url_of file_id in
       emit (logger_debug ("Scaricando file da: " +:+ export_url)) ;;;
       df <- pd_read_excel export_url ;;
       if negb (bool_decide (is_Some (df_columns df !! "imprevisto")))
       then emit (st_error msg_missing_column) ;;; ret None
       else ret (Some df))
    (fun e =>
       emit (st_error (msg_load_failed e)) ;;;
       emit (st_info msg_sharing_hint) ;;;
       ret None).

(** Modelled from the spec: the memo table behind [@st.cache_data(ttl=600)]
    (line 35), which is Streamlit's and not part of the script.  Spec 4.1
    and 9: the key is the URL string, the value is the result with the
    time it was stored, an entry is checked against the time-to-live when
    it is read, and a live entry is returned without running the
    function.  An exception of the function is not stored.  Only what
    the spec names is kept: a hit emits nothing. *)
Definition cache_data (ttl : Z) (f : string -> Py (option DataFrame))
    (url : string) : Py (option DataFrame) :=
  fun w =>
    let miss :=
      match f url w with
      | (w', Returned v) =>
          (with_cache (insert url {| ce_value := v; ce_time := now w |}) w', Returned v)
      | (w', Raised e) => (w', Raised e)
      end in
    match cache w !! url with
    | Some entry =>
        if now w <? ce_time entry + ttl then (w, Returned (ce_value entry)) else miss
    | None => miss
    end.

(** The decorated function, as the script calls it. *)
Definition load_data_from_gdrive_cached : string -> Py (option DataFrame) :=
  cache_data 600 load_data_from_gdrive.

(** ** The load button (lines 115-125) *)

Definition on_load_button (gdrive_url : string) : Py unit :=
  if PyStr.truthy gdrive_url
  then
    data <- load_data_from_gdrive_cached gdrive_url ;;
    match data with
    | Some df =>
        set_session "imprevisti_df" (VData (Some df)) ;;;
        emit (st_success ("Caricati con successo "
                          +:+ PyStr.str_int (Z.of_nat (df_len df)) +:+ " imprevisti!"))
    | None => set_session "imprevisti_df" (VData None)
    end
  else emit (st_warning "Per favore, inserisci un URL valido.").

(** ** sync_team1, sync_team2 (lines 67-90) *)

Inductive numeric_column := ColValore | ColBarra.

Definition set_cell (col : numeric_column) (v : option Z) (r : FactorRow) : FactorRow :=
  match col with
  | ColValore => {| Fattore := Fattore r; Valore := v; Barra := Barra r |}
  | ColBarra => {| Fattore := Fattore r; Valore := Valore r; Barra := v |}
  end.

(** the row pandas adds for a label the index does not have *)
Definition nan_row : FactorRow :=
  {| Fattore := None; Valore := None; Barra := None |}.

Definition in_index (row : Z) (df : list (Z * FactorRow)) : bool :=
  existsb (fun lr => fst lr =? row) df.

(** what the assignment does to one labelled row *)
Definition loc_assign (row : Z) (col : numeric_column) (v : option Z)
    (lr : Z * FactorRow) : Z * FactorRow :=
  if lr.1 =? row then (lr.1, set_cell col v lr.2) else lr.

(** [df.loc[row, col] = v]: every row labelled [row] gets [v] in column
    [col]; when no row has that label, pandas appends one, NaN in the
    other columns. *)
Definition loc_setitem (row : Z) (col : numeric_column) (v : option Z)
    (df : list (Z * FactorRow)) : list (Z * FactorRow) :=
  if in_index row df
  then map (loc_assign row col v) df
  else df ++ [(row, set_cell col v nan_row)].

(** [st.session_state.<df_key>.loc[row, col] = v]; the table is changed
    in place. *)
Definition session_loc_setitem (df_key : string) (row : Z) (col : numeric_column)
    (v : option Z) : Py unit :=
  held <- get_session df_key ;;
  match held with
  | VTeam df => set_session df_key (VTeam (loc_setitem row col v df))
  | _ => raise (AttributeError "object has no attribute 'loc'")
  end.

(** The two callbacks differ only in the keys they use. *)
Definition sync_team (editor_key df_key : string) : Py unit :=
  held <- get_session editor_key ;;
  match held with
  | VEditor ed =>
      let edited_dict := default [] (edited_rows ed) in
      for_each edited_dict (fun '(row, edit) =>
        v <- lift (dict_getitem edit "Valore") ;;
        session_loc_setitem df_key row ColValore v ;;;
        v' <- lift (dict_getitem edit "Valore") ;;
        session_loc_setitem df_key row ColBarra v')
  | _ => raise (AttributeError "object has no attribute 'get'")
  end.

Definition sync_team1 : Py unit := sync_team "editor_team1" "team1_df".

Definition sync_team2 : Py unit := sync_team "editor_team2" "team2_df".

(** ** The game-over check (lines 213-221) *)

(** [(df['Valore'] <= 0).any()]; a comparison with NaN is False *)
Definition has_critical_factor (df : list (Z * FactorRow)) : bool :=
  existsb (fun lr => match Valore (snd lr) with
                     | Some v => v <=? 0
                     | None => false
                     end) df.

Definition msg_game_over_1 : string :=
  "☠️ GIOCO FINITO! La Squadra 1 ha esaurito completamente un fattore! ☠️".

Definition msg_game_over_2 : string :=
  "☠️ GIOCO FINITO! La Squadra 2 ha esaurito completamente un fattore! ☠️".

Definition get_team (df_key : string) : Py (list (Z * FactorRow)) :=
  held <- get_session df_key ;;
  match held with
  | VTeam df => ret df
  | _ => raise (TypeError "object is not subscriptable")
  end.

(** Returns the final value of [game_over], which starts as False. *)
Definition game_over_check : Py bool :=
  let game_over := false in
  team1_df <- get_team "team1_df" ;;
  game_over <- (if has_critical_factor team1_df
                then emit (st_error msg_game_over_1) ;;; emit st_balloons ;;; ret true
                else ret game_over) ;;
  team2_df <- get_team "team2_df" ;;
  game_over <- (if has_critical_factor team2_df
                then emit (st_error msg_game_over_2) ;;; emit st_balloons ;;; ret true
                else ret game_over) ;;
  ret game_over.

(** ** Drawing an event (lines 227-245) *)

(** [series.dropna().tolist()] *)
Definition dropna_tolist (series : list (option scalar)) : list scalar :=
  omap id series.

(** [df['imprevisto'].dropna().tolist()] *)
Definition event_list_of (df : DataFrame) : outcome (list scalar) :=
  match dict_getitem (df_columns df) "imprevisto" with
  | Returned series => Returned (dropna_tolist series)
  | Raised e => Raised e
  end.

Definition msg_no_events : string :=
  "Nessun imprevisto valido trovato nella colonna 'imprevisto' del file Excel.".

Definition msg_drawn (chosen_event : scalar) : string :=
  "**Imprevisto Pescato:**" +:+ PyStr.newline +:+ PyStr.newline +:+ " "
  +:+ str_scalar chosen_event.

(** Lines 227-245 for the number [selected_event] that the number input
    hands over; returns [chosen_event]. *)
Definition draw_event (selected_event : Z) : Py scalar :=
  held <- get_session "imprevisti_df" ;;
  match held with
  | VData (Some df) =>
      event_list <- lift (event_list_of df) ;;
      (match event_list with
       | [] => emit (st_warning msg_no_events) ;;; raise StopException
       | _ => ret tt
       end) ;;;
      emit (logger_debug ("Numero imprevisto selezionato: " +:+ PyStr.str_int selected_event)) ;;;
      chosen_event <- lift (py_getitem event_list (selected_event - 1)) ;;
      emit (st_warning (msg_drawn chosen_event)) ;;;
      ret chosen_event
  | _ => raise (TypeError "object is not subscriptable")
  end.

(** ** The error kinds of the specification *)

(** Spec 4.1 names four kinds of load failure; the script has no such
    type.  [spec_error_kind] follows the spec's steps 1, 2, 4 and 6 and
    attaches each kind to the place in [load_data_from_gdrive] where that
    failure arises: the host test, the indexing of the split URL, the
    download, the column test. *)
Inductive ErrorKind := InvalidUrlError | MalformedUrlError | FetchError | SchemaError.

Definition spec_error_kind (url : string) (network : string -> string + DataFrame)
    : option ErrorKind :=
  if negb (PyStr.contains "google.com" url) then Some InvalidUrlError
  else match PyStr.split "/d/" url !! 1%nat with
       | None => Some MalformedUrlError
       | Some rest =>
           match network (export_url_after_d rest) with
           | inl _ => Some FetchError
           | inr df =>
               if bool_decide (is_Some (df_columns df !! "imprevisto"))
               then None else Some SchemaError
           end
       end.

(** Spec 4.1 step 2, in the spec's words: the URL has a path segment
    [/d/<id>/], an identifier between [/d/] and the next [/]. *)
Fixpoint spec_has_d_id_segment (url : string) : bool :=
  match url with
  | EmptyString => false
  | String _ rest =>
      (String.prefix "/d/" url && PyStr.contains "/" (String.substring 3 (String.length url) url))
      || spec_has_d_id_segment rest
  end.

(** Spec 4.1 step 7, in the spec's words: drop the empty entries and
    coerce the kept ones to text. *)
Definition spec_event_catalog (series : list (option scalar)) : list scalar :=
  map (fun v => SStr (str_scalar v)) (omap id series).

(** The world after the script has emitted [evs] and changed nothing else. *)
Definition shows (evs : list Event) (w : World) : World :=
  {| session_state := session_state w; shown := shown w ++ evs;
     cache := cache w; now := now w; net := net w |}.

(** The Streamlit elements among the emitted events: what the user sees. *)
Definition is_st_element (ev : Event) : bool :=
  match ev with
  | logger_debug _ | http_get _ => false
  | _ => true
  end.

Definition st_elements (evs : list Event) : list Event :=
  List.filter is_st_element evs.

(** The loop of [sync_team] seen on the table alone, for edits that all
    carry a value: row by row, [Valore] then [Barra]. *)
Definition apply_edits (edits : list (Z * option Z)) (df : list (Z * FactorRow))
    : list (Z * FactorRow) :=
  foldl (fun acc rv => loc_setitem rv.1 ColBarra rv.2 (loc_setitem rv.1 ColValore rv.2 acc))
        df edits.

(** [(row, edit['Valore'])] for the edits that have the key *)
Definition edit_values (edited_dict : list (Z * gmap string (option Z)))
    : list (Z * option Z) :=
  omap (fun re => (fun v => (re.1, v)) <$> (re.2 !! "Valore")) edited_dict.

(** [if key not in d: d[key] = v], the step [initialize_state] takes for
    each of its three keys *)
Definition setdefault (key : string) (v : ss_value) (d : gmap string ss_value)
    : gmap string ss_value :=
  if bool_decide (is_Some (d !! key)) then d else <[key := v]> d.

(** ** Sample data *)

Definition sample_sheet : DataFrame :=
  {| df_len := 4;
     df_columns := {[ "imprevisto" := [Some (SStr "flood"); None; Some (SStr "riot");
                                       Some (SStr "plague")] ]} |}.

Definition sheet_without_column : DataFrame :=
  {| df_len := 1; df_columns := {[ "evento" := [Some (SStr "flood")] ]} |}.

Definition sheet_of_numbers : DataFrame :=
  {| df_len := 1; df_columns := {[ "imprevisto" := [Some (SInt 42)] ]} |}.

(** A network on which document [ABC] is public and has the column,
    document [XYZ] lacks the column, and every other download fails. *)
Definition sample_net (export_url : string) : string + DataFrame :=
  if String.eqb export_url (export_url_of "ABC") then inr sample_sheet
  else if String.eqb export_url (export_url_of "XYZ") then inr sheet_without_column
  else inl "HTTP Error 404: Not Found"%string.

Definition fresh_world : World :=
  {| session_state := ∅; shown := []; cache := ∅; now := 0; net := sample_net |}.

Definition url_ABC : string := "https://docs.google.com/spreadsheets/d/ABC/edit?usp=sharing".
Definition url_ABC_no_slash : string := "https://docs.google.com/spreadsheets/d/ABC".
Definition url_XYZ : string := "https://docs.google.com/spreadsheets/d/XYZ/edit".
Definition url_private : string := "https://docs.google.com/spreadsheets/d/PRIV/edit".
Definition url_no_d : string := "https://docs.google.com/spreadsheets/ABC/edit".
Definition url_not_google : string := "https://example.com/not-google/doc".

(** A session in which [sample_sheet] has been loaded. *)
Definition loaded_world : World :=
  (on_load_button url_ABC (initialize_state fresh_world).1).1.

(** Two pending edits: row 2 to 0, row 5 to 40. *)
Definition sample_edits : list (Z * gmap string (option Z)) :=
  [(2, {[ "Valore" := Some 0 ]}); (5, {[ "Valore" := Some 40 ]})].

(** The session of [loaded_world] with [sample_edits] pending for team 1. *)
Definition edited_world : World :=
  with_session
    (insert "editor_team1" (VEditor {| edited_rows := Some sample_edits |}))
    loaded_world.

(** The session of [loaded_world] with [sample_edits] pending for team 2. *)
Definition edited_world_team2 : World :=
  with_session
    (insert "editor_team2" (VEditor {| edited_rows := Some sample_edits |}))
    loaded_world.

(** The session of [edited_world] after the callback of team 1. *)
Definition synced_world : World := (sync_team1 edited_world).1.

(** ** One run of the script (lines 93-250) *)

Definition msg_prompt : string :=
  "Inserisci l'URL del tuo Google Sheet e clicca 'Carica' per iniziare.".

Definition msg_finished : string :=
  "Il gioco è terminato. Per ricominciare, ricarica la pagina (F5).".

(** The module-level code from line 93 on, for what the three input
    widgets hand over in this run: whether the button was clicked, the
    text of the URL field, the number of the number input.  The calls
    that only lay out the page (title, headers, dividers, columns, the
    two table editors) emit nothing here; the callbacks of the editors
    are [sync_team1] and [sync_team2], which Streamlit runs before the
    script. *)
Definition script_run (clicked : bool) (gdrive_url : string) (selected_event : Z)
    : Py unit :=
  initialize_state ;;;
  (if clicked then on_load_button gdrive_url else ret tt) ;;;
  held <- get_session "imprevisti_df" ;;
  match held with
  | VData None => emit (st_info msg_prompt)
  | _ =>
      game_over <- game_over_check ;;
      _ <- draw_event selected_event ;;
      if game_over then emit (st_warning msg_finished) else ret tt
  end.

(** ** Auxiliary notions for the statements *)

Definition has_Valore (re : Z * gmap string (option Z)) : bool :=
  bool_decide (is_Some (re.2 !! "Valore")).

(** The edits the loop of [sync_team] gets through: those before the
    first edit without the key [Valore]. *)
Fixpoint edits_before_failure (edited_dict : list (Z * gmap string (option Z)))
    : list (Z * option Z) :=
  match edited_dict with
  | [] => []
  | re :: rest =>
      match re.2 !! "Valore" with
      | Some v => (re.1, v) :: edits_before_failure rest
      | None => []
      end
  end.

(** label and factor name of a row *)
Definition row_identity (lr : Z * FactorRow) : Z * option string :=
  (lr.1, Fattore lr.2).

(** [sep.join(pieces)] *)
Fixpoint join (sep : string) (pieces : list string) : string :=
  match pieces with
  | [] => EmptyString
  | [piece] => piece
  | piece :: rest => piece +:+ sep +:+ join sep rest
  end.

(** Pending edits of which the second has lost its value. *)
Definition broken_edits : list (Z * gmap string (option Z)) :=
  [(2, {[ "Valore" := Some 0 ]}); (5, ∅); (6, {[ "Valore" := Some 10 ]})].

(** The session of [loaded_world] with [broken_edits] pending for team 1. *)
Definition broken_world : World :=
  with_session
    (insert "editor_team1" (VEditor {| edited_rows := Some broken_edits |}))
    loaded_world.

(** The URLs downloaded among the emitted events, in order. *)
Definition downloads (evs : list Event) : list string :=
  omap (fun ev => match ev with http_get url => Some url | _ => None end) evs.

(** A sheet whose column has only missing cells, and a session that
    holds it. *)
Definition sheet_of_blanks : DataFrame :=
  {| df_len := 2; df_columns := {[ "imprevisto" := [None; None] ]} |}.

Definition blank_world : World :=
  with_session (insert "imprevisti_df" (VData (Some sheet_of_blanks)))
    (initialize_state fresh_world).1.

(** ** Well-formed worlds *)

Definition has_events_column (df : DataFrame) : Prop :=
  is_Some (df_columns df !! "imprevisto").

(** What the script itself puts under its three keys: tables under the
    team keys, and under the catalog key [None] or a sheet with the
    column.  A key may be absent. *)
Definition session_ok (d : gmap string ss_value) : Prop :=
  (forall v, d !! "team1_df" = Some v -> exists t, v = VTeam t) /\
  (forall v, d !! "team2_df" = Some v -> exists t, v = VTeam t) /\
  (forall v, d !! "imprevisti_df" = Some v ->
             exists data, v = VData data /\ forall df, data = Some df -> has_events_column df).

(** Every sheet in the memo table has the column. *)
Definition cache_ok (c : gmap string CacheEntry) : Prop :=
  forall url entry df,
    c !! url = Some entry -> ce_value entry = Some df -> has_events_column df.

Definition world_ok (w : World) : Prop :=
  session_ok (session_state w) /\ cache_ok (cache w).

(** The freshly initialised session with [broken_edits] pending for team 2. *)
Definition started_world : World :=
  with_session
    (insert "editor_team2" (VEditor {| edited_rows := Some broken_edits |}))
    (initialize_state fresh_world).1.

(** * Properties *)

(** Reduce the projections of a [World] that a step has built. *)
Ltac world_fields := cbn [session_state shown cache now net].

(** ** Python strings and lists *)

Example split_sharing_link :
  PyStr.split "/d/" "https://docs.google.com/spreadsheets/d/1aBcD/edit?usp=sharing"
  = ["https://docs.google.com/spreadsheets"; "1aBcD/edit?usp=sharing"].
Proof. reflexivity. Qed.

Example split_slash : PyStr.split "/" "1aBcD/edit?usp=sharing" = ["1aBcD"; "edit?usp=sharing"].
Proof. reflexivity. Qed.

Example split_trailing : PyStr.split "/d/" "a/d/" = ["a"; EmptyString].
Proof. reflexivity. Qed.

Example split_twice : PyStr.split "/d/" "x/d/y/d/z" = ["x"; "y"; "z"].
Proof. reflexivity. Qed.

Example split_overlap : PyStr.split "/d/" "/d/d/" = [EmptyString; "d/"].
Proof. reflexivity. Qed.

Example split_absent : PyStr.split "/d/" "google.com" = ["google.com"].
Proof. reflexivity. Qed.

Example contains_host : PyStr.contains "google.com" "https://docs.google.com/x" = true.
Proof. reflexivity. Qed.

Example str_int_neg : PyStr.str_int (-42) = "-42"%string.
Proof. reflexivity. Qed.

Lemma split_go_cons sep k s : exists piece pieces, PyStr.split_go sep k s = piece :: pieces.
Proof.
  revert k. induction s as [|c s IH]; intros k; cbn [PyStr.split_go].
  - eauto.
  - destruct k as [|k]; [|apply IH].
    destruct (String.prefix sep (String c s)); [eauto|].
    destruct (IH 0%nat) as (p & ps & ->). eauto.
Qed.

Lemma split_cons sep s : exists piece pieces, PyStr.split sep s = piece :: pieces.
Proof. apply split_go_cons. Qed.

Lemma contains_cons_false needle c s :
  PyStr.contains needle (String c s) = false ->
  String.prefix needle (String c s) = false /\ PyStr.contains needle s = false.
Proof.
  change (PyStr.contains needle (String c s))
    with (String.prefix needle (String c s) || PyStr.contains needle s).
  apply orb_false_elim.
Qed.

(** Without an occurrence of the separator nothing is cut. *)
Lemma split_absent_whole sep s :
  PyStr.contains sep s = false -> PyStr.split sep s = [s].
Proof.
  unfold PyStr.split. induction s as [|c s IH]; intros H.
  - reflexivity.
  - apply contains_cons_false in H as [Hp Hc].
    cbn [PyStr.split_go]. rewrite Hp, (IH Hc). reflexivity.
Qed.

Lemma py_getitem_nonneg {A} (l : list A) (i : Z) :
  0 <= i ->
  py_getitem l i = match l !! Z.to_nat i with
                   | Some x => Returned x
                   | None => Raised (IndexError "list index out of range")
                   end.
Proof.
  intros Hi. unfold py_getitem.
  destruct (Z.ltb_spec i 0) as [?|_]; [lia|].
  destruct (Z.leb_spec 0 i) as [_|?]; [|lia]. cbn [andb].
  destruct (Z.ltb_spec i (Z.of_nat (length l))) as [Hlt|Hge]; [reflexivity|].
  rewrite (proj2 (lookup_ge_None l (Z.to_nat i))) by lia. reflexivity.
Qed.

Lemma py_getitem_first {A} (x : A) (l : list A) : py_getitem (x :: l) 0 = Returned x.
Proof. rewrite py_getitem_nonneg by lia. reflexivity. Qed.

(** ** load_data_from_gdrive, path by path *)

Section LoadPaths.
Variable url : string.
Variable w : World.

(** line 44: the host marker is missing *)
Lemma load_invalid_url :
  PyStr.contains "google.com" url = false ->
  load_data_from_gdrive url w = (shows [st_error msg_invalid_url] w, Returned None).
Proof.
  intros H. unfold load_data_from_gdrive, try_except. rewrite H. reflexivity.
Qed.

(** line 48: the URL has no second piece, [...][1] raises IndexError *)
Lemma load_malformed_url :
  PyStr.contains "google.com" url = true ->
  PyStr.split "/d/" url !! 1%nat = None ->
  load_data_from_gdrive url w
  = (shows [st_error (msg_load_failed (IndexError "list index out of range"));
            st_info msg_sharing_hint] w,
     Returned None).
Proof.
  intros Hhost Hsplit. unfold load_data_from_gdrive, try_except, bind, lift.
  rewrite Hhost. cbn [negb]. rewrite py_getitem_nonneg by lia.
  change (Z.to_nat 1) with 1%nat. rewrite Hsplit. cbn [is_Exception].
  unfold emit, ret, shows, with_shown. cbn [shown session_state cache now net].
  rewrite <- app_assoc. reflexivity.
Qed.

Variable rest : string.
Hypothesis Hhost : PyStr.contains "google.com" url = true.
Hypothesis Hsplit : PyStr.split "/d/" url !! 1%nat = Some rest.

Local Abbreviation export_url := (export_url_after_d rest).

(** Up to the download the three remaining paths agree. *)
Lemma load_reaches_download :
  load_data_from_gdrive url w
  = try_except
      (df <- (fun w' => match net w' export_url with
                        | inr df => (w', Returned df)
                        | inl msg => (w', Raised (ReadError msg))
                        end) ;;
       if negb (bool_decide (is_Some (df_columns df !! "imprevisto")))
       then emit (st_error msg_missing_column) ;;; ret None
       else ret (Some df))
      (fun e =>
         emit (st_error (msg_load_failed e)) ;;;
         emit (st_info msg_sharing_hint) ;;;
         ret None)
      (shows [logger_debug ("Scaricando file da: " +:+ export_url); http_get export_url] w).
Proof.
  unfold load_data_from_gdrive, try_except, bind, lift, pd_read_excel.
  rewrite Hhost. cbn [negb]. rewrite py_getitem_nonneg by lia.
  change (Z.to_nat 1) with 1%nat. rewrite Hsplit.
  unfold export_url_after_d.
  destruct (split_cons "/" rest) as (p & ps & Hp). rewrite Hp, py_getitem_first.
  cbn [List.hd]. unfold emit, bind, shows, with_shown.
  cbn [shown session_state cache now net]. rewrite <- app_assoc. reflexivity.
Qed.

(** line 53: the download or the parser raises *)
Lemma load_fetch_failed msg :
  net w export_url = inl msg ->
  load_data_from_gdrive url w
  = (shows [logger_debug ("Scaricando file da: " +:+ export_url); http_get export_url;
            st_error (msg_load_failed (ReadError msg)); st_info msg_sharing_hint] w,
     Returned None).
Proof.
  intros Hnet. rewrite load_reaches_download.
  unfold try_except, bind, shows. cbn [net]. rewrite Hnet. cbn [is_Exception].
  unfold emit, ret, with_shown. cbn [shown session_state cache now net].
  rewrite <- !app_assoc. reflexivity.
Qed.

(** line 56: the sheet has no column [imprevisto] *)
Lemma load_missing_column df :
  net w export_url = inr df ->
  df_columns df !! "imprevisto" = None ->
  load_data_from_gdrive url w
  = (shows [logger_debug ("Scaricando file da: " +:+ export_url); http_get export_url;
            st_error msg_missing_column] w,
     Returned None).
Proof.
  intros Hnet Hcol. rewrite load_reaches_download.
  unfold try_except, bind, shows. cbn [net]. rewrite Hnet, Hcol.
  rewrite bool_decide_eq_false_2 by (intros [? ?]; discriminate).
  unfold emit, ret, with_shown. cbn [negb shown session_state cache now net].
  rewrite <- !app_assoc. reflexivity.
Qed.

(** line 60: the sheet is returned *)
Lemma load_returns_sheet df series :
  net w export_url = inr df ->
  df_columns df !! "imprevisto" = Some series ->
  load_data_from_gdrive url w
  = (shows [logger_debug ("Scaricando file da: " +:+ export_url); http_get export_url] w,
     Returned (Some df)).
Proof.
  intros Hnet Hcol. rewrite load_reaches_download.
  unfold try_except, bind, shows. cbn [net]. rewrite Hnet, Hcol.
  rewrite bool_decide_eq_true_2 by eauto. reflexivity.
Qed.
End LoadPaths.

(** Every run of the function takes exactly one of five paths; which one
    is fixed by the URL and by what the network answers. *)
Lemma load_by_kind url w :
  match spec_error_kind url (net w) with
  | Some InvalidUrlError =>
      load_data_from_gdrive url w = (shows [st_error msg_invalid_url] w, Returned None)
  | Some MalformedUrlError =>
      load_data_from_gdrive url w
      = (shows [st_error (msg_load_failed (IndexError "list index out of range"));
                st_info msg_sharing_hint] w, Returned None)
  | Some FetchError =>
      exists export_url msg,
        net w export_url = inl msg /\
        load_data_from_gdrive url w
        = (shows [logger_debug ("Scaricando file da: " +:+ export_url); http_get export_url;
                  st_error (msg_load_failed (ReadError msg)); st_info msg_sharing_hint] w,
           Returned None)
  | Some SchemaError =>
      exists export_url df,
        net w export_url = inr df /\ df_columns df !! "imprevisto" = None /\
        load_data_from_gdrive url w
        = (shows [logger_debug ("Scaricando file da: " +:+ export_url); http_get export_url;
                  st_error msg_missing_column] w, Returned None)
  | None =>
      exists export_url df,
        net w export_url = inr df /\ is_Some (df_columns df !! "imprevisto") /\
        load_data_from_gdrive url w
        = (shows [logger_debug ("Scaricando file da: " +:+ export_url); http_get export_url] w,
           Returned (Some df))
  end.
Proof.
  unfold spec_error_kind.
  destruct (PyStr.contains "google.com" url) eqn:Hhost; cbn [negb].
  2: { by apply load_invalid_url. }
  destruct (PyStr.split "/d/" url !! 1%nat) as [rest|] eqn:Hsplit.
  2: { by apply load_malformed_url. }
  set (export_url := export_url_after_d rest).
  destruct (net w export_url) as [msg|df] eqn:Hnet.
  { exists export_url, msg. split; [done|]. by eapply load_fetch_failed. }
  destruct (df_columns df !! "imprevisto") as [series|] eqn:Hcol.
  - rewrite bool_decide_eq_true_2 by eauto.
    exists export_url, df. split_and!; [done|by rewrite Hcol|]. by eapply load_returns_sheet.
  - rewrite bool_decide_eq_false_2 by (intros [? ?]; discriminate).
    exists export_url, df. split_and!; [done..|]. by eapply load_missing_column.
Qed.

(** The function always returns, and only emits: the session, the memo
    table, the clock and the network are as before. *)
Lemma load_returns url w :
  exists evs data, load_data_from_gdrive url w = (shows evs w, Returned data).
Proof.
  pose proof (load_by_kind url w) as H.
  destruct (spec_error_kind url (net w)) as [[]|].
  - eauto.
  - eauto.
  - destruct H as (? & ? & _ & ->). eauto.
  - destruct H as (? & ? & _ & _ & ->). eauto.
  - destruct H as (? & ? & _ & _ & ->). eauto.
Qed.

(** A call of the decorated function is a hit on a live entry, or a run
    of the function whose result is stored under the URL with the current
    time. *)
Lemma cached_load_cases url w :
  (exists entry,
      cache w !! url = Some entry /\ now w < ce_time entry + 600 /\
      load_data_from_gdrive_cached url w = (w, Returned (ce_value entry)))
  \/
  ((forall entry, cache w !! url = Some entry -> ce_time entry + 600 <= now w) /\
   exists evs data,
     load_data_from_gdrive url w = (shows evs w, Returned data) /\
     load_data_from_gdrive_cached url w
     = (with_cache (insert url {| ce_value := data; ce_time := now w |}) (shows evs w),
        Returned data)).
Proof.
  destruct (load_returns url w) as (evs & data & Hload).
  unfold load_data_from_gdrive_cached, cache_data. rewrite Hload.
  destruct (cache w !! url) as [entry|] eqn:Hentry.
  - destruct (Z.ltb_spec (now w) (ce_time entry + 600)) as [Hlive|Hdead].
    + left. exists entry. done.
    + right. split; [intros ? [= <-]; done|]. exists evs, data. done.
  - right. split; [intros ? [=]|]. exists evs, data. done.
Qed.

(** ** The claims about loading *)

(** C9. [load_data_from_gdrive] never lets an exception out: for every
    URL string and every state of the world it returns, and what it
    returns is [None] on each failure path (host marker missing, [/d/]
    missing, download or parse error, column missing) and the parsed
    sheet, which then has the column, otherwise.  The decorated function
    returns as well. *)
Theorem load_data_from_gdrive_total url w :
  exists w' data,
    load_data_from_gdrive url w = (w', Returned data) /\
    match spec_error_kind url (net w) with
    | Some _ => data = None
    | None => exists df, data = Some df /\ is_Some (df_columns df !! "imprevisto")
    end /\
    exists w'' data', load_data_from_gdrive_cached url w = (w'', Returned data').
Proof.
  pose proof (load_by_kind url w) as H.
  assert (exists w'' data', load_data_from_gdrive_cached url w = (w'', Returned data')) as Hc.
  { destruct (cached_load_cases url w) as [(e & _ & _ & ->)|(_ & ? & ? & _ & ->)]; eauto. }
  destruct (spec_error_kind url (net w)) as [[]|].
  - rewrite H. eauto.
  - rewrite H. eauto.
  - destruct H as (? & ? & _ & ->). eauto.
  - destruct H as (? & ? & _ & _ & ->). eauto.
  - destruct H as (? & df & _ & Hcol & ->). do 2 eexists. split_and!; eauto.
Qed.

(** C2, as the code has it.  Every failure makes the function return
    [None] and show one of three messages: the invalid-URL text, the
    missing-column text, or the load-error text followed by the text of
    the exception, and the sharing hint.  The last form is the one for a
    URL without [/d/], where the exception is the index error, and for a
    failed download, where the text is the one the download of the
    export URL raised with. *)
Theorem load_failure_messages url w kind :
  spec_error_kind url (net w) = Some kind ->
  exists evs,
    load_data_from_gdrive url w = (shows evs w, Returned None) /\
    match kind with
    | InvalidUrlError =>
        st_elements evs
        = [st_error "URL non valido. Assicurati sia un link Google Sheet."]
    | SchemaError =>
        st_elements evs
        = [st_error "Errore: Il file Excel DEVE avere una colonna chiamata 'imprevisto'."]
    | MalformedUrlError =>
        st_elements evs
        = [st_error "Errore nel caricamento o lettura del file: list index out of range";
           st_info msg_sharing_hint]
    | FetchError =>
        exists rest msg,
          PyStr.split "/d/" url !! 1%nat = Some rest /\
          net w (export_url_after_d rest) = inl msg /\
          downloads evs = [export_url_after_d rest] /\
          st_elements evs
          = [st_error ("Errore nel caricamento o lettura del file: " +:+ msg);
             st_info msg_sharing_hint]
    end.
Proof.
  unfold spec_error_kind.
  destruct (PyStr.contains "google.com" url) eqn:Hhost; cbn [negb].
  2: { intros [= <-]. eexists. split; [by apply load_invalid_url|reflexivity]. }
  destruct (PyStr.split "/d/" url !! 1%nat) as [rest|] eqn:Hsplit.
  2: { intros [= <-]. eexists. split; [by apply load_malformed_url|reflexivity]. }
  destruct (net w (export_url_after_d rest)) as [msg|df] eqn:Hnet.
  { intros [= <-]. eexists. split; [by eapply load_fetch_failed|].
    exists rest, msg. split_and!; done. }
  destruct (df_columns df !! "imprevisto") as [series|] eqn:Hcol.
  - rewrite bool_decide_eq_true_2 by eauto. done.
  - rewrite bool_decide_eq_false_2 by (intros [? ?]; discriminate).
    intros [= <-]. eexists. split; [by eapply load_missing_column|reflexivity].
Qed.

Lemma load_failure_messages_witness :
  spec_error_kind url_private (net fresh_world) = Some FetchError /\
  exists evs,
    load_data_from_gdrive url_private fresh_world = (shows evs fresh_world, Returned None) /\
    exists rest msg,
      PyStr.split "/d/" url_private !! 1%nat = Some rest /\
      net fresh_world (export_url_after_d rest) = inl msg /\
      downloads evs = [export_url_after_d rest] /\
      st_elements evs
      = [st_error ("Errore nel caricamento o lettura del file: " +:+ msg);
         st_info msg_sharing_hint].
Proof.
  split; [reflexivity|].
  apply (load_failure_messages url_private fresh_world FetchError). reflexivity.
Defined.

(** On the sample network the failed download shows the text of the
    404 that the network answered with. *)
Example load_failure_message_sample :
  st_elements (shown (load_data_from_gdrive url_private fresh_world).1)
  = [st_error "Errore nel caricamento o lettura del file: HTTP Error 404: Not Found";
     st_info msg_sharing_hint].
Proof. reflexivity. Qed.

(** C2, as stated, fails: the caller of [load_data_from_gdrive] gets
    [None] for a URL without the host marker and for a URL without
    [/d/], so no reading of the returned value tells the four kinds
    apart. *)
Lemma load_failure_kinds_not_told_apart :
  ~ exists tell : outcome (option DataFrame) -> ErrorKind,
      forall url w kind,
        spec_error_kind url (net w) = Some kind ->
        tell (load_data_from_gdrive url w).2 = kind.
Proof.
  intros [tell Htell].
  pose proof (Htell url_not_google fresh_world InvalidUrlError eq_refl) as H1.
  pose proof (Htell url_no_d fresh_world MalformedUrlError eq_refl) as H2.
  vm_compute in H1, H2. congruence.
Qed.

(** The five paths on the sample network. *)
Example load_paths_sample :
  (load_data_from_gdrive url_not_google fresh_world).2 = Returned None /\
  (load_data_from_gdrive url_no_d fresh_world).2 = Returned None /\
  (load_data_from_gdrive url_private fresh_world).2 = Returned None /\
  (load_data_from_gdrive url_XYZ fresh_world).2 = Returned None /\
  (load_data_from_gdrive url_ABC fresh_world).2 = Returned (Some sample_sheet) /\
  spec_error_kind url_not_google sample_net = Some InvalidUrlError /\
  spec_error_kind url_no_d sample_net = Some MalformedUrlError /\
  spec_error_kind url_private sample_net = Some FetchError /\
  spec_error_kind url_XYZ sample_net = Some SchemaError /\
  spec_error_kind url_ABC sample_net = None.
Proof. split_and!; reflexivity. Qed.

(** What the user sees does not separate a URL without [/d/] from a
    download that fails with the same text. *)
Example load_error_text_shared :
  let offline := at_time 0 (fun _ => inl "list index out of range"%string) fresh_world in
  st_elements (shown (load_data_from_gdrive url_ABC offline).1)
  = st_elements (shown (load_data_from_gdrive url_no_d offline).1) /\
  spec_error_kind url_ABC (net offline) = Some FetchError /\
  spec_error_kind url_no_d (net offline) = Some MalformedUrlError.
Proof. split_and!; reflexivity. Qed.

(** C3, as the code has it.  A URL with the host marker and without
    [/d/] anywhere makes the function fail before the download: it
    returns [None], shows the load error with the text of the index
    error, and emits no [http_get]. *)
Theorem load_without_d_fails_before_fetch url w :
  PyStr.contains "google.com" url = true ->
  PyStr.contains "/d/" url = false ->
  exists evs,
    load_data_from_gdrive url w = (shows evs w, Returned None) /\
    st_elements evs = [st_error (msg_load_failed (IndexError "list index out of range"));
                       st_info msg_sharing_hint] /\
    forall fetched, http_get fetched ∉ evs.
Proof.
  intros Hhost Hd. eexists. split; [|split].
  - apply load_malformed_url; [done|]. by rewrite (split_absent_whole _ _ Hd).
  - reflexivity.
  - intros fetched Hin. rewrite !elem_of_cons in Hin.
    destruct Hin as [?|[?|Hin]]; [done..|]. by apply elem_of_nil in Hin.
Qed.

Lemma load_without_d_fails_before_fetch_witness :
  PyStr.contains "google.com" url_no_d = true /\
  PyStr.contains "/d/" url_no_d = false /\
  exists evs,
    load_data_from_gdrive url_no_d fresh_world = (shows evs fresh_world, Returned None) /\
    st_elements evs = [st_error (msg_load_failed (IndexError "list index out of range"));
                       st_info msg_sharing_hint] /\
    forall fetched, http_get fetched ∉ evs.
Proof.
  split; [reflexivity|]. split; [reflexivity|].
  apply (load_without_d_fails_before_fetch url_no_d fresh_world); reflexivity.
Defined.

(** C3, as stated, fails: [https://docs.google.com/spreadsheets/d/ABC]
    has the host marker and no [/d/<id>/] segment (nothing closes the
    identifier), yet the function takes [ABC] as the identifier,
    downloads the export and returns the sheet. *)
Lemma load_fetches_without_closing_slash :
  ~ forall url w,
      PyStr.contains "google.com" url = true ->
      spec_has_d_id_segment url = false ->
      exists evs,
        load_data_from_gdrive url w = (shows evs w, Returned None) /\
        forall fetched, http_get fetched ∉ evs.
Proof.
  intros H.
  destruct (H url_ABC_no_slash fresh_world eq_refl eq_refl) as (evs & Hload & _).
  vm_compute in Hload. discriminate Hload.
Qed.

(** The download that C3 rules out does happen on that URL. *)
Example load_fetches_without_closing_slash_trace :
  load_data_from_gdrive url_ABC_no_slash fresh_world
  = (shows [logger_debug ("Scaricando file da: " +:+ export_url_of "ABC");
            http_get (export_url_of "ABC")] fresh_world,
     Returned (Some sample_sheet)).
Proof. reflexivity. Qed.

(** ** The load button *)

Lemma shows_session evs w : session_state (shows evs w) = session_state w.
Proof. reflexivity. Qed.

(** Loading, cached or not, leaves the session dictionary alone. *)
Lemma cached_load_session url w :
  exists w1 data,
    load_data_from_gdrive_cached url w = (w1, Returned data) /\
    session_state w1 = session_state w.
Proof.
  destruct (cached_load_cases url w) as [(e & _ & _ & ->)|(_ & evs & data & _ & ->)]; eauto.
Qed.

(** C1, as the code has it.  A click with a non-empty URL ends with the
    key [imprevisti_df] holding the loaded sheet when the load succeeded
    and [None] when it failed, whatever the key held before; every other
    key of the session keeps its value.  A click with an empty URL leaves
    the session as it was. *)
Theorem load_button_sets_catalog url w :
  exists w1 data,
    load_data_from_gdrive_cached url w = (w1, Returned data) /\
    (on_load_button url w).2 = Returned tt /\
    session_state (on_load_button url w).1
    = (if PyStr.truthy url
       then match data with
            | Some df => <["imprevisti_df" := VData (Some df)]> (session_state w)
            | None => <["imprevisti_df" := VData None]> (session_state w)
            end
       else session_state w) /\
    forall key, key ≠ "imprevisti_df" ->
      session_state (on_load_button url w).1 !! key = session_state w !! key.
Proof.
  destruct (cached_load_session url w) as (w1 & data & Hload & Hsess).
  exists w1, data. split; [done|].
  unfold on_load_button. destruct (PyStr.truthy url).
  - unfold bind. rewrite Hload.
    destruct data as [df|]; cbn; rewrite Hsess;
      (split_and!; [done..|intros key Hkey; by rewrite lookup_insert_ne]).
  - done.
Qed.

(** C1, as stated, fails: after a successful load, a click with a URL
    that is not a Google link fails and the catalog that was loaded is
    gone. *)
Lemma failed_load_overwrites_catalog :
  ~ forall url w w1,
      load_data_from_gdrive_cached url w = (w1, Returned None) ->
      session_state (on_load_button url w).1 !! "imprevisti_df"
      = session_state w !! "imprevisti_df".
Proof.
  intros H.
  specialize (H url_not_google loaded_world
                (load_data_from_gdrive_cached url_not_google loaded_world).1).
  assert (session_state loaded_world !! "imprevisti_df" = Some (VData (Some sample_sheet)))
    as Hbefore by (vm_compute; reflexivity).
  assert (session_state (on_load_button url_not_google loaded_world).1 !! "imprevisti_df"
          = Some (VData None)) as Hafter by (vm_compute; reflexivity).
  rewrite Hbefore, Hafter in H.
  discriminate H. vm_compute. reflexivity.
Qed.

(** ** The memo table *)

(** C8. After a call of the decorated function with a URL, the memo
    table holds the returned value under that URL, stored at the time of
    the call when the call ran the function.  Every later call with the
    same URL while that entry is live, that is before 600 seconds have
    passed since it was stored, returns the same value and leaves the
    world as it found it, whatever the network would answer by then: no
    event is emitted, so nothing is downloaded. *)
Theorem cached_load_idempotent url w :
  exists w1 data stored,
    load_data_from_gdrive_cached url w = (w1, Returned data) /\
    cache w1 !! url = Some {| ce_value := data; ce_time := stored |} /\
    ((forall entry, cache w !! url = Some entry -> ce_time entry + 600 <= now w) ->
     stored = now w) /\
    forall later network,
      later < stored + 600 ->
      load_data_from_gdrive_cached url (at_time later network w1)
      = (at_time later network w1, Returned data) /\
      shown (load_data_from_gdrive_cached url (at_time later network w1)).1 = shown w1.
Proof.
  assert (forall w1 data stored later network,
             cache w1 !! url = Some {| ce_value := data; ce_time := stored |} ->
             later < stored + 600 ->
             load_data_from_gdrive_cached url (at_time later network w1)
             = (at_time later network w1, Returned data)) as Hhit.
  { intros w1 data stored later network Hentry Hlive.
    unfold load_data_from_gdrive_cached, cache_data. cbn [cache at_time now].
    rewrite Hentry. cbn [ce_time ce_value].
    destruct (Z.ltb_spec later (stored + 600)); [reflexivity|lia]. }
  destruct (cached_load_cases url w)
    as [(entry & Hentry & Hlive & Hrun)|(Hmiss & evs & data & _ & Hrun)].
  - exists w, (ce_value entry), (ce_time entry). split_and!.
    + done.
    + by destruct entry.
    + intros Hdead. specialize (Hdead _ Hentry). lia.
    + intros later network Hlater.
      rewrite (Hhit w (ce_value entry) (ce_time entry)); [done| by destruct entry | done].
  - eexists _, data, (now w). split_and!.
    + exact Hrun.
    + cbn. apply lookup_insert_eq.
    + done.
    + intros later network Hlater.
      erewrite Hhit; [done| cbn; apply lookup_insert_eq | done].
Qed.

(** Within the window the answer is the stored one even when the
    document has changed meanwhile; once the window has passed the
    function runs again. *)
Example cached_load_sample :
  let w1 := (load_data_from_gdrive_cached url_ABC fresh_world).1 in
  (load_data_from_gdrive_cached url_ABC (at_time 599 (fun _ => inl "offline"%string) w1)).2
  = Returned (Some sample_sheet) /\
  (load_data_from_gdrive_cached url_ABC (at_time 600 (fun _ => inl "offline"%string) w1)).2
  = Returned None.
Proof. split; reflexivity. Qed.

(** ** The catalog and the draw *)

Lemma dropna_tolist_filter (series : list (option scalar)) :
  Some <$> dropna_tolist series = filter is_Some series.
Proof.
  unfold dropna_tolist. induction series as [|[v|] series IH].
  - reflexivity.
  - rewrite filter_cons_True by eauto. rewrite <- IH. reflexivity.
  - rewrite filter_cons_False by (intros [? ?]; discriminate). rewrite <- IH. reflexivity.
Qed.

(** A sheet that the function returns has the column, so taking the
    event list from it does not raise. *)
Lemma loaded_sheet_has_column url w w' df :
  load_data_from_gdrive url w = (w', Returned (Some df)) ->
  is_Some (df_columns df !! "imprevisto").
Proof.
  intros Hload. pose proof (load_by_kind url w) as H.
  destruct (spec_error_kind url (net w)) as [[]|].
  - congruence.
  - congruence.
  - destruct H as (? & ? & _ & H). congruence.
  - destruct H as (? & ? & _ & _ & H). congruence.
  - destruct H as (? & df' & _ & Hcol & H). congruence.
Qed.

(** C4, as the code has it.  For a sheet with a column [imprevisto] the
    event list is the column with the missing cells taken out: the kept
    cells are there as they are in the sheet, in the order of the sheet,
    and their number is the number of non-missing cells.  No value is
    turned into text. *)
Theorem event_list_is_non_null_cells df series :
  df_columns df !! "imprevisto" = Some series ->
  exists event_list,
    event_list_of df = Returned event_list /\
    Some <$> event_list = filter is_Some series /\
    length event_list = length (filter is_Some series).
Proof.
  intros Hcol. exists (dropna_tolist series). split_and!.
  - unfold event_list_of, dict_getitem. by rewrite Hcol.
  - apply dropna_tolist_filter.
  - by rewrite <- dropna_tolist_filter, length_fmap.
Qed.

Lemma event_list_is_non_null_cells_witness :
  df_columns sample_sheet !! "imprevisto"
  = Some [Some (SStr "flood"); None; Some (SStr "riot"); Some (SStr "plague")] /\
  exists event_list,
    event_list_of sample_sheet = Returned event_list /\
    Some <$> event_list
    = filter is_Some [Some (SStr "flood"); None; Some (SStr "riot"); Some (SStr "plague")] /\
    length event_list
    = length (filter is_Some [Some (SStr "flood"); None; Some (SStr "riot");
                              Some (SStr "plague")]).
Proof.
  split; [reflexivity|].
  apply (event_list_is_non_null_cells sample_sheet). reflexivity.
Defined.

(** C4, as stated, fails: a numeric cell stays a number in the event
    list; the list for a column holding 42 is [[42]], not [["42"]]. *)
Lemma event_list_not_coerced_to_text :
  ~ forall df series,
      df_columns df !! "imprevisto" = Some series ->
      event_list_of df = Returned (spec_event_catalog series).
Proof.
  intros H. specialize (H sheet_of_numbers [Some (SInt 42)] eq_refl).
  vm_compute in H. discriminate H.
Qed.

(** C7. With a catalog in the session and a number [i] between 1 and the
    length of the event list, the draw returns the event at position
    [i - 1], shows it, and leaves the session, the catalog with it, as it
    was; drawing again with the same number returns the same event. *)
Theorem draw_event_returns_indexed w df event_list i :
  session_state w !! "imprevisti_df" = Some (VData (Some df)) ->
  event_list_of df = Returned event_list ->
  1 <= i <= Z.of_nat (length event_list) ->
  exists chosen_event,
    event_list !! Z.to_nat (i - 1) = Some chosen_event /\
    draw_event i w
    = (shows [logger_debug ("Numero imprevisto selezionato: " +:+ PyStr.str_int i);
              st_warning (msg_drawn chosen_event)] w,
       Returned chosen_event) /\
    session_state (draw_event i w).1 = session_state w /\
    (draw_event i (draw_event i w).1).2 = Returned chosen_event.
Proof.
  intros Hheld Hlist Hi.
  destruct (lookup_lt_is_Some_2 event_list (Z.to_nat (i - 1))) as [chosen Hchosen]; [lia|].
  assert (forall w', session_state w' !! "imprevisti_df" = Some (VData (Some df)) ->
            draw_event i w'
            = (shows [logger_debug ("Numero imprevisto selezionato: " +:+ PyStr.str_int i);
                      st_warning (msg_drawn chosen)] w', Returned chosen)) as Hrun.
  { intros w' Hheld'.
    unfold draw_event, bind, get_session, lift. rewrite Hheld', Hlist.
    destruct event_list as [|e0 events]; [cbn in Hi; lia|].
    cbn [emit ret]. rewrite py_getitem_nonneg by lia. rewrite Hchosen.
    unfold shows, with_shown. cbn [shown session_state cache now net].
    rewrite <- app_assoc. reflexivity. }
  exists chosen. rewrite (Hrun w Hheld). cbn [fst snd].
  split_and!; [done..|]. by rewrite Hrun.
Qed.

(** The scenario of the specification: from the catalog flood, riot,
    plague the draw with number 2 returns riot. *)
Lemma draw_event_returns_indexed_witness :
  session_state loaded_world !! "imprevisti_df" = Some (VData (Some sample_sheet)) /\
  event_list_of sample_sheet = Returned [SStr "flood"; SStr "riot"; SStr "plague"] /\
  1 <= 2 <= Z.of_nat (length [SStr "flood"; SStr "riot"; SStr "plague"]) /\
  exists chosen_event,
    [SStr "flood"; SStr "riot"; SStr "plague"] !! Z.to_nat (2 - 1) = Some chosen_event /\
    draw_event 2 loaded_world
    = (shows [logger_debug ("Numero imprevisto selezionato: " +:+ PyStr.str_int 2);
              st_warning (msg_drawn chosen_event)] loaded_world,
       Returned chosen_event) /\
    session_state (draw_event 2 loaded_world).1 = session_state loaded_world /\
    (draw_event 2 (draw_event 2 loaded_world).1).2 = Returned chosen_event.
Proof.
  split; [vm_compute; reflexivity|]. split; [reflexivity|]. split; [cbn; lia|].
  apply (draw_event_returns_indexed loaded_world sample_sheet); [vm_compute; reflexivity|reflexivity|cbn; lia].
Defined.

Example draw_riot : (draw_event 2 loaded_world).2 = Returned (SStr "riot").
Proof. vm_compute. reflexivity. Qed.

(** ** Session start *)

Lemma with_session_same w : with_session (fun d => d) w = w.
Proof. by destruct w. Qed.

Lemma setdefault_present key v (d : gmap string ss_value) :
  is_Some (d !! key) -> setdefault key v d = d.
Proof. intros H. unfold setdefault. by rewrite bool_decide_eq_true_2. Qed.

Lemma setdefault_absent key v (d : gmap string ss_value) :
  d !! key = None -> setdefault key v d = <[key := v]> d.
Proof.
  intros H. unfold setdefault.
  rewrite bool_decide_eq_false_2; [done|]. rewrite H. by intros [? ?].
Qed.

Lemma setdefault_keeps key v (d : gmap string ss_value) key' v' :
  d !! key' = Some v' -> setdefault key v d !! key' = Some v'.
Proof.
  intros H. unfold setdefault. case_bool_decide as Hin; [done|].
  rewrite lookup_insert_ne; [done|]. intros ->. apply Hin. eauto.
Qed.

Lemma setdefault_other key v (d : gmap string ss_value) key' :
  key ≠ key' -> setdefault key v d !! key' = d !! key'.
Proof.
  intros H. unfold setdefault. case_bool_decide; [done|]. by rewrite lookup_insert_ne.
Qed.

Lemma setdefault_lookup key v (d : gmap string ss_value) :
  setdefault key v d !! key = Some (default v (d !! key)).
Proof.
  destruct (d !! key) as [x|] eqn:H.
  - by rewrite setdefault_present, H by eauto.
  - by rewrite setdefault_absent, lookup_insert_eq.
Qed.

Lemma session_defaults_idempotent (d : gmap string ss_value) :
  let fill d := setdefault "imprevisti_df" (VData None)
                  (setdefault "team2_df" (VTeam default_data)
                     (setdefault "team1_df" (VTeam default_data) d)) in
  fill (fill d) = fill d.
Proof.
  intros fill. set (d3 := fill d).
  assert (is_Some (d3 !! "team1_df")) as P1.
  { subst d3 fill. cbn beta. rewrite !setdefault_other by done.
    rewrite setdefault_lookup. eauto. }
  assert (is_Some (d3 !! "team2_df")) as P2.
  { subst d3 fill. cbn beta. rewrite setdefault_other by done.
    rewrite setdefault_lookup. eauto. }
  assert (is_Some (d3 !! "imprevisti_df")) as P3.
  { subst d3 fill. cbn beta. rewrite setdefault_lookup. eauto. }
  subst fill. cbn beta.
  rewrite (setdefault_present "team1_df") by done.
  rewrite (setdefault_present "team2_df") by done.
  by rewrite (setdefault_present "imprevisti_df").
Qed.

Lemma initialize_state_run w :
  initialize_state w
  = (with_session (fun d => setdefault "imprevisti_df" (VData None)
                              (setdefault "team2_df" (VTeam default_data)
                                 (setdefault "team1_df" (VTeam default_data) d))) w,
     Returned tt).
Proof.
  destruct w as [d sh ca t n]. unfold initialize_state.
  generalize (VTeam default_data) (VData None). intros table catalog.
  unfold bind, in_session, setdefault, set_session, ret, with_session.
  world_fields.
  repeat (case_bool_decide; cbn [negb]; world_fields); reflexivity.
Qed.

Lemma default_data_rows label row :
  (label, row) ∈ default_data -> Valore row = Some 100 /\ Barra row = Some 100.
Proof.
  unfold default_data, pd_DataFrame, default_Fattore, default_Valore, default_Barra.
  cbn. rewrite !elem_of_cons. intros H.
  repeat (destruct H as [[= -> ->]|H]; [done|]). by apply elem_of_nil in H.
Qed.

(** C10. [initialize_state] returns without an exception and only adds
    keys: a key that the session has keeps its value; each of
    [team1_df], [team2_df], [imprevisti_df] that the session lacks is
    created, the tables as the default table of 8 rows with [Valore] and
    [Barra] at 100, the catalog as [None]; no other key appears.  Running
    it again changes nothing. *)
Theorem initialize_state_preserves_and_idempotent w :
  exists d',
    initialize_state w = (with_session (fun _ => d') w, Returned tt) /\
    (forall key v, session_state w !! key = Some v -> d' !! key = Some v) /\
    (session_state w !! "team1_df" = None -> d' !! "team1_df" = Some (VTeam default_data)) /\
    (session_state w !! "team2_df" = None -> d' !! "team2_df" = Some (VTeam default_data)) /\
    (session_state w !! "imprevisti_df" = None -> d' !! "imprevisti_df" = Some (VData None)) /\
    (forall key, key ≠ "team1_df" -> key ≠ "team2_df" -> key ≠ "imprevisti_df" ->
                 d' !! key = session_state w !! key) /\
    (length default_data = 8%nat /\
     forall label row, (label, row) ∈ default_data ->
                       Valore row = Some 100 /\ Barra row = Some 100) /\
    initialize_state (initialize_state w).1 = ((initialize_state w).1, Returned tt).
Proof.
  eexists. split; [apply initialize_state_run|]. split_and!.
  - intros key v H. by do 3 apply setdefault_keeps.
  - intros H. rewrite !setdefault_other by done. by rewrite setdefault_lookup, H.
  - intros H. rewrite setdefault_other by done.
    by rewrite setdefault_lookup, setdefault_other, H.
  - intros H. by rewrite setdefault_lookup, !setdefault_other, H.
  - intros key H1 H2 H3. by rewrite !setdefault_other.
  - reflexivity.
  - apply default_data_rows.
  - rewrite !initialize_state_run. cbn [fst]. f_equal.
    destruct w as [d sh ca t n]. unfold with_session.
    world_fields. f_equal.
    apply session_defaults_idempotent.
Qed.

(** ** The game-over check *)

Lemma has_critical_factor_iff (df : list (Z * FactorRow)) :
  has_critical_factor df = true <->
  exists label row v, (label, row) ∈ df /\ Valore row = Some v /\ v <= 0.
Proof.
  unfold has_critical_factor. rewrite existsb_exists. split.
  - intros ([label row] & Hin & Hrow). cbn [snd] in Hrow.
    destruct (Valore row) as [v|] eqn:Hv; [|done].
    exists label, row, v. apply list_elem_of_In in Hin. split_and!; [done..|lia].
  - intros (label & row & v & Hin & Hv & Hle).
    exists (label, row). split; [by apply list_elem_of_In|].
    cbn [snd]. rewrite Hv. lia.
Qed.

Lemma game_over_check_run w team1_df team2_df :
  session_state w !! "team1_df" = Some (VTeam team1_df) ->
  session_state w !! "team2_df" = Some (VTeam team2_df) ->
  game_over_check w
  = (shows ((if has_critical_factor team1_df
             then [st_error msg_game_over_1; st_balloons] else [])
            ++ (if has_critical_factor team2_df
                then [st_error msg_game_over_2; st_balloons] else [])) w,
     Returned (has_critical_factor team1_df || has_critical_factor team2_df)).
Proof.
  intros H1 H2. destruct w as [d sh ca t n]. cbn [session_state] in H1, H2.
  unfold game_over_check, get_team, bind, get_session, emit, ret, shows, with_shown.
  world_fields. rewrite H1.
  destruct (has_critical_factor team1_df);
    world_fields; rewrite H2;
    destruct (has_critical_factor team2_df);
    cbn [session_state shown cache now net orb app];
    rewrite <- ?app_assoc, ?app_nil_r; reflexivity.
Qed.

(** C6.  The test on a table is true exactly when some row has a value
    in [Valore] that is at most 0, and it is false on the default table.
    The check of the script returns true exactly when the test is true
    for team 1 or for team 2, and it reports each team by itself: the
    message of a team is shown exactly when the test is true for that
    team. *)
Theorem game_over_check_spec w team1_df team2_df :
  session_state w !! "team1_df" = Some (VTeam team1_df) ->
  session_state w !! "team2_df" = Some (VTeam team2_df) ->
  (forall df, has_critical_factor df = true <->
              exists label row v, (label, row) ∈ df /\ Valore row = Some v /\ v <= 0) /\
  has_critical_factor default_data = false /\
  exists evs,
    game_over_check w
    = (shows evs w, Returned (has_critical_factor team1_df || has_critical_factor team2_df)) /\
    (st_error msg_game_over_1 ∈ evs <-> has_critical_factor team1_df = true) /\
    (st_error msg_game_over_2 ∈ evs <-> has_critical_factor team2_df = true).
Proof.
  intros H1 H2. split; [apply has_critical_factor_iff|]. split; [reflexivity|].
  eexists. split; [by apply game_over_check_run|].
  assert (msg_game_over_1 ≠ msg_game_over_2) as Hne by discriminate.
  destruct (has_critical_factor team1_df), (has_critical_factor team2_df);
    cbn [app]; rewrite ?elem_of_cons, ?elem_of_nil; split; split;
    intros H; try done; try (by left); try (by right; right; left);
    repeat (destruct H as [H|H]; try done); try congruence.
Qed.

Lemma game_over_check_spec_witness :
  session_state synced_world !! "team1_df"
  = Some (VTeam (apply_edits [(2, Some 0); (5, Some 40)] default_data)) /\
  session_state synced_world !! "team2_df" = Some (VTeam default_data) /\
  (forall df, has_critical_factor df = true <->
              exists label row v, (label, row) ∈ df /\ Valore row = Some v /\ v <= 0) /\
  has_critical_factor default_data = false /\
  exists evs,
    game_over_check synced_world
    = (shows evs synced_world,
       Returned (has_critical_factor (apply_edits [(2, Some 0); (5, Some 40)] default_data)
                 || has_critical_factor default_data)) /\
    (st_error msg_game_over_1 ∈ evs <->
     has_critical_factor (apply_edits [(2, Some 0); (5, Some 40)] default_data) = true) /\
    (st_error msg_game_over_2 ∈ evs <-> has_critical_factor default_data = true).
Proof.
  split; [vm_compute; reflexivity|]. split; [vm_compute; reflexivity|].
  apply (game_over_check_spec synced_world); vm_compute; reflexivity.
Defined.

Example game_over_after_zero :
  (game_over_check synced_world).2 = Returned true /\
  (game_over_check loaded_world).2 = Returned false.
Proof. split; vm_compute; reflexivity. Qed.

(** ** The edit callbacks *)

Lemma in_index_elem row (df : list (Z * FactorRow)) :
  in_index row df = true <-> exists r, (row, r) ∈ df.
Proof.
  unfold in_index. rewrite existsb_exists. split.
  - intros ([label r] & Hin & Heq). cbn [fst] in Heq. apply Z.eqb_eq in Heq. subst.
    exists r. by apply list_elem_of_In.
  - intros (r & Hin). exists (row, r). split; [by apply list_elem_of_In|]. apply Z.eqb_refl.
Qed.

Section LocSetitem.
Variable row : Z.
Variable col : numeric_column.
Variable v : option Z.

Lemma loc_assign_label lr : (loc_assign row col v lr).1 = lr.1.
Proof. unfold loc_assign. by destruct (lr.1 =? row). Qed.

Lemma loc_setitem_filter (P : Z -> Prop) `{!forall x, Decision (P x)} df :
  ~ P row ->
  filter (fun lr => P lr.1) (loc_setitem row col v df) = filter (fun lr => P lr.1) df.
Proof.
  intros Hrow. unfold loc_setitem. destruct (in_index row df).
  - induction df as [|lr df IH]; [reflexivity|].
    cbn [map]. destruct (decide (P lr.1)) as [Hp|Hp].
    + rewrite !filter_cons_True by (by rewrite ?loc_assign_label). rewrite IH. f_equal.
      unfold loc_assign. destruct (Z.eqb_spec lr.1 row) as [Heq|]; [|done].
      by rewrite Heq in Hp.
    + rewrite !filter_cons_False by (by rewrite ?loc_assign_label). exact IH.
  - rewrite filter_app. rewrite (filter_cons_False _ (row, _)) by done.
    rewrite filter_nil. apply app_nil_r.
Qed.

Lemma loc_setitem_in_index df : in_index row (loc_setitem row col v df) = true.
Proof.
  unfold loc_setitem. destruct (in_index row df) eqn:Hin.
  - apply in_index_elem in Hin as [r Hr]. apply in_index_elem.
    exists (set_cell col v r). apply list_elem_of_In, in_map_iff.
    exists (row, r). unfold loc_assign. cbn [fst snd]. rewrite Z.eqb_refl.
    split; [done|]. by apply list_elem_of_In.
  - apply in_index_elem. eexists. apply elem_of_app. right. apply list_elem_of_singleton.
    reflexivity.
Qed.

(** Every row with the label comes out with [v] in the column, and is a
    row the table already had when the label was in the index. *)
Lemma loc_setitem_row df r :
  (row, r) ∈ loc_setitem row col v df ->
  exists r0, r = set_cell col v r0 /\ (in_index row df = true -> (row, r0) ∈ df).
Proof.
  unfold loc_setitem. destruct (in_index row df) eqn:Hin.
  - intros H. apply list_elem_of_In, in_map_iff in H as ([label r0] & Heq & Hr0).
    unfold loc_assign in Heq. cbn [fst snd] in Heq.
    destruct (Z.eqb_spec label row) as [->|Hne].
    + injection Heq as <-. exists r0. split; [done|]. intros _. by apply list_elem_of_In.
    + injection Heq as -> ->. done.
  - intros H. apply elem_of_app in H as [H|H].
    + assert (in_index row df = true) by (apply in_index_elem; eauto). congruence.
    + apply list_elem_of_singleton in H. injection H as ->. exists nan_row. done.
Qed.
End LocSetitem.

(** One pass of the loop body on the table: [Valore], then [Barra]. *)
Lemma edit_step_rows row v df r :
  (row, r) ∈ loc_setitem row ColBarra v (loc_setitem row ColValore v df) ->
  Valore r = v /\ Barra r = v.
Proof.
  intros H. apply loc_setitem_row in H as (r1 & -> & Hr1).
  specialize (Hr1 (loc_setitem_in_index _ _ _ _)).
  apply loc_setitem_row in Hr1 as (r0 & -> & _). done.
Qed.

Lemma apply_edits_filter (P : Z -> Prop) `{!forall x, Decision (P x)} edits df :
  (forall row v, (row, v) ∈ edits -> ~ P row) ->
  filter (fun lr => P lr.1) (apply_edits edits df) = filter (fun lr => P lr.1) df.
Proof.
  unfold apply_edits. revert df. induction edits as [|[row v] edits IH]; intros df Hout.
  - reflexivity.
  - cbn [foldl fst snd]. rewrite IH.
    + rewrite !loc_setitem_filter; [done|eapply Hout; left..].
    + intros row' v' Hin. eapply Hout. by right.
Qed.

Lemma filter_label_elem (df1 df2 : list (Z * FactorRow)) row r :
  filter (fun lr => lr.1 = row) df1 = filter (fun lr => lr.1 = row) df2 ->
  (row, r) ∈ df1 -> (row, r) ∈ df2.
Proof.
  intros Heq Hr.
  assert ((row, r) ∈ filter (fun lr => lr.1 = row) df1) as H
    by (by apply list_elem_of_filter).
  rewrite Heq in H. by apply list_elem_of_filter in H as [_ ?].
Qed.

Lemma apply_edits_edited edits df row v :
  NoDup edits.*1 ->
  (row, v) ∈ edits ->
  in_index row (apply_edits edits df) = true /\
  forall r, (row, r) ∈ apply_edits edits df -> Valore r = v /\ Barra r = v.
Proof.
  revert df. induction edits as [|[row0 v0] edits IH]; intros df Hnodup Hin.
  - by apply elem_of_nil in Hin.
  - cbn [fmap list_fmap fst] in Hnodup. apply NoDup_cons in Hnodup as [Hfresh Hnodup].
    apply elem_of_cons in Hin as [[= -> ->]|Hin].
    + set (df1 := loc_setitem row0 ColBarra v0 (loc_setitem row0 ColValore v0 df)).
      change (apply_edits ((row0, v0) :: edits) df) with (apply_edits edits df1).
      pose proof (apply_edits_filter (fun l => l = row0) edits df1) as Hsame.
      assert (forall r, (row0, r) ∈ apply_edits edits df1 <-> (row0, r) ∈ df1) as Hrows.
      { assert (forall row' v', (row', v') ∈ edits -> row' <> row0) as Hother.
        { intros row' v' Hin' ->. apply Hfresh. apply list_elem_of_fmap.
          by exists (row0, v'). }
        specialize (Hsame Hother).
        intros r. split; apply filter_label_elem; [exact Hsame|by symmetry]. }
      split.
      * assert (in_index row0 df1 = true) as Hidx by apply loc_setitem_in_index.
        apply in_index_elem in Hidx as [r Hr]. apply in_index_elem. exists r. by apply Hrows.
      * intros r Hr. apply Hrows in Hr. by apply edit_step_rows in Hr.
    + by apply IH.
Qed.

(** The loop of the callback: with the table in the session and every
    edit carrying the key [Valore], it runs to its end and the session
    holds the table that [apply_edits] gives. *)
Lemma sync_loop_run df_key (edits : list (Z * gmap string (option Z))) w df :
  session_state w !! df_key = Some (VTeam df) ->
  (forall row edit, (row, edit) ∈ edits -> is_Some (edit !! "Valore")) ->
  for_each edits (fun '(row, edit) =>
    v <- lift (dict_getitem edit "Valore") ;;
    session_loc_setitem df_key row ColValore v ;;;
    v' <- lift (dict_getitem edit "Valore") ;;
    session_loc_setitem df_key row ColBarra v') w
  = (with_session (insert df_key (VTeam (apply_edits (edit_values edits) df))) w, Returned tt).
Proof.
  revert w df. induction edits as [|[row edit] edits IH]; intros w df Hheld Hkeys.
  - cbn. unfold ret. f_equal. destruct w as [d sh ca t n]. unfold with_session.
    cbn [session_state shown cache now net] in *. f_equal. by rewrite insert_id.
  - destruct (Hkeys row edit) as [v Hv]; [by left|].
    cbn [for_each]. unfold bind at 1.
    unfold bind at 1, lift at 1, dict_getitem at 1. rewrite Hv.
    unfold bind at 1, session_loc_setitem at 1, bind at 1, get_session at 1.
    rewrite Hheld. unfold set_session at 1.
    unfold bind at 1, lift at 1, dict_getitem at 1. rewrite Hv.
    unfold session_loc_setitem at 1, bind at 1, get_session at 1.
    cbn [with_session session_state]. rewrite lookup_insert_eq. unfold set_session at 1.
    erewrite IH.
    + f_equal. destruct w as [d sh ca t n]. unfold with_session.
      world_fields. f_equal.
      rewrite !insert_insert_eq. f_equal. f_equal.
      unfold edit_values. cbn [omap list_omap fst snd]. rewrite Hv. reflexivity.
    + cbn [with_session session_state]. apply lookup_insert_eq.
    + intros row' edit' Hin. eapply Hkeys. by right.
Qed.

Lemma edit_values_keys (edits : list (Z * gmap string (option Z))) :
  (forall row edit, (row, edit) ∈ edits -> is_Some (edit !! "Valore")) ->
  (edit_values edits).*1 = edits.*1.
Proof.
  induction edits as [|[row edit] edits IH]; intros Hkeys; [reflexivity|].
  destruct (Hkeys row edit) as [v Hv]; [by left|].
  unfold edit_values in *. cbn [omap list_omap fst snd]. rewrite Hv. cbn.
  f_equal. apply IH. intros row' edit' Hin. eapply Hkeys. by right.
Qed.

Lemma edit_values_elem (edits : list (Z * gmap string (option Z))) row edit v :
  (row, edit) ∈ edits -> edit !! "Valore" = Some v -> (row, v) ∈ edit_values edits.
Proof.
  intros Hin Hv. unfold edit_values. apply list_elem_of_omap.
  exists (row, edit). cbn [fst snd]. by rewrite Hv.
Qed.

(** C5.  The callback of a team, for pending edits with distinct row
    labels that each carry a value between 0 and 100 under [Valore]:
    it returns without an exception and changes only the table of that
    team; every edited label is in the table and every row with that
    label has the incoming value in [Valore] and in [Barra]; the rows
    whose label is not edited are the rows of the table before, with the
    same [Fattore], [Valore] and [Barra], in the same order.  This is
    what [sync_team1] does on the keys of team 1 and what [sync_team2]
    does on the keys of team 2. *)
Theorem sync_team_applies_edits editor_key df_key w ed edits df :
  session_state w !! editor_key = Some (VEditor ed) ->
  default [] (edited_rows ed) = edits ->
  session_state w !! df_key = Some (VTeam df) ->
  NoDup edits.*1 ->
  (forall row edit, (row, edit) ∈ edits ->
                    exists v, edit !! "Valore" = Some (Some v) /\ 0 <= v <= 100) ->
  exists df',
    sync_team editor_key df_key w
    = (with_session (insert df_key (VTeam df')) w, Returned tt) /\
    (editor_key = "editor_team1" -> df_key = "team1_df" ->
     sync_team1 w = (with_session (insert "team1_df" (VTeam df')) w, Returned tt)) /\
    (editor_key = "editor_team2" -> df_key = "team2_df" ->
     sync_team2 w = (with_session (insert "team2_df" (VTeam df')) w, Returned tt)) /\
    (forall row edit v,
        (row, edit) ∈ edits -> edit !! "Valore" = Some (Some v) ->
        in_index row df' = true /\
        forall r, (row, r) ∈ df' -> Valore r = Some v /\ Barra r = Some v) /\
    filter (fun lr => lr.1 ∉ edits.*1) df' = filter (fun lr => lr.1 ∉ edits.*1) df.
Proof.
  intros Hed Hedits Hdf Hnodup Hvalues.
  assert (forall row edit, (row, edit) ∈ edits -> is_Some (edit !! "Valore")) as Hkeys.
  { intros row edit Hin. destruct (Hvalues row edit Hin) as (v & Hv & _). eauto. }
  assert (sync_team editor_key df_key w
          = (with_session (insert df_key (VTeam (apply_edits (edit_values edits) df))) w,
             Returned tt)) as Hrun.
  { unfold sync_team, bind at 1, get_session. rewrite Hed, Hedits.
    by apply sync_loop_run. }
  exists (apply_edits (edit_values edits) df). split_and!.
  - exact Hrun.
  - intros -> ->. exact Hrun.
  - intros -> ->. exact Hrun.
  - intros row edit v Hin Hv. apply apply_edits_edited.
    + by rewrite edit_values_keys.
    + by eapply edit_values_elem.
  - pose proof (apply_edits_filter (fun l => l ∉ edits.*1) (edit_values edits) df) as Hsame.
    apply Hsame. intros row v Hin Hout. apply Hout. rewrite <- edit_values_keys by done.
    apply list_elem_of_fmap. by exists (row, v).
Qed.

Lemma sync_team_applies_edits_witness :
  session_state edited_world !! "editor_team1"
  = Some (VEditor {| edited_rows := Some sample_edits |}) /\
  session_state edited_world_team2 !! "editor_team2"
  = Some (VEditor {| edited_rows := Some sample_edits |}) /\
  default [] (edited_rows {| edited_rows := Some sample_edits |}) = sample_edits /\
  session_state edited_world !! "team1_df" = Some (VTeam default_data) /\
  session_state edited_world_team2 !! "team2_df" = Some (VTeam default_data) /\
  NoDup sample_edits.*1 /\
  (forall row edit, (row, edit) ∈ sample_edits ->
                    exists v, edit !! "Valore" = Some (Some v) /\ 0 <= v <= 100) /\
  (exists df',
    sync_team1 edited_world
    = (with_session (insert "team1_df" (VTeam df')) edited_world, Returned tt) /\
    (forall row edit v,
        (row, edit) ∈ sample_edits -> edit !! "Valore" = Some (Some v) ->
        in_index row df' = true /\
        forall r, (row, r) ∈ df' -> Valore r = Some v /\ Barra r = Some v) /\
    filter (fun lr => lr.1 ∉ sample_edits.*1) df'
    = filter (fun lr => lr.1 ∉ sample_edits.*1) default_data) /\
  (exists df',
    sync_team2 edited_world_team2
    = (with_session (insert "team2_df" (VTeam df')) edited_world_team2, Returned tt) /\
    (forall row edit v,
        (row, edit) ∈ sample_edits -> edit !! "Valore" = Some (Some v) ->
        in_index row df' = true /\
        forall r, (row, r) ∈ df' -> Valore r = Some v /\ Barra r = Some v) /\
    filter (fun lr => lr.1 ∉ sample_edits.*1) df'
    = filter (fun lr => lr.1 ∉ sample_edits.*1) default_data).
Proof.
  assert (forall row edit, (row, edit) ∈ sample_edits ->
            exists v, edit !! "Valore" = Some (Some v) /\ 0 <= v <= 100) as Hvalues.
  { intros row edit Hin. unfold sample_edits in Hin. rewrite !elem_of_cons in Hin.
    destruct Hin as [[= -> ->]|[[= -> ->]|Hin]].
    - exists 0. split; [reflexivity|lia].
    - exists 40. split; [reflexivity|lia].
    - by apply elem_of_nil in Hin. }
  assert (NoDup sample_edits.*1) as Hnodup.
  { apply (bool_decide_unpack _). vm_compute. exact I. }
  split; [vm_compute; reflexivity|]. split; [vm_compute; reflexivity|].
  split; [reflexivity|].
  split; [vm_compute; reflexivity|]. split; [vm_compute; reflexivity|].
  split; [exact Hnodup|]. split; [exact Hvalues|]. split.
  - destruct (sync_team_applies_edits "editor_team1" "team1_df" edited_world
                {| edited_rows := Some sample_edits |} sample_edits default_data)
      as (df' & _ & Hteam1 & _ & Hrows & Hrest);
      [vm_compute; reflexivity|reflexivity|vm_compute; reflexivity|exact Hnodup
      |exact Hvalues|].
    exists df'. split; [exact (Hteam1 eq_refl eq_refl)|]. split; [exact Hrows|exact Hrest].
  - destruct (sync_team_applies_edits "editor_team2" "team2_df" edited_world_team2
                {| edited_rows := Some sample_edits |} sample_edits default_data)
      as (df' & _ & _ & Hteam2 & Hrows & Hrest);
      [vm_compute; reflexivity|reflexivity|vm_compute; reflexivity|exact Hnodup
      |exact Hvalues|].
    exists df'. split; [exact (Hteam2 eq_refl eq_refl)|]. split; [exact Hrows|exact Hrest].
Defined.

(** The callback of team 2 writes the table of team 2, and only that. *)
Example sync_team2_writes_team2 :
  session_state (sync_team2 edited_world_team2).1 !! "team2_df"
  = Some (VTeam (apply_edits [(2, Some 0); (5, Some 40)] default_data)) /\
  session_state (sync_team2 edited_world_team2).1 !! "team1_df"
  = Some (VTeam default_data).
Proof. split; vm_compute; reflexivity. Qed.

(** The scenario of the specification: on a fresh table the edit of row
    2 to 0 gives 0 in both columns of that row and makes the test for a
    critical factor true. *)
Example sync_then_critical :
  session_state synced_world !! "team1_df"
  = Some (VTeam (apply_edits [(2, Some 0); (5, Some 40)] default_data)) /\
  apply_edits [(2, Some 0); (5, Some 40)] default_data !! 2%nat
  = Some (2, {| Fattore := Some "💰 Finanze"; Valore := Some 0; Barra := Some 0 |}) /\
  has_critical_factor (apply_edits [(2, Some 0); (5, Some 40)] default_data) = true.
Proof. split_and!; vm_compute; reflexivity. Qed.

(** A label outside the index: pandas appends a row for it, and that row
    too ends with the value in both columns. *)
Example sync_enlarges :
  apply_edits [(9, Some 5)] default_data !! 8%nat
  = Some (9, {| Fattore := None; Valore := Some 5; Barra := Some 5 |}).
Proof. vm_compute. reflexivity. Qed.

(** * Further properties of the script *)

(** ** The edit callbacks in every outcome *)

Lemma with_session_insert_id key v w :
  session_state w !! key = Some v -> with_session (insert key v) w = w.
Proof.
  intros H. destruct w as [d sh ca t n]. unfold with_session. world_fields.
  cbn [session_state] in H. f_equal. by apply insert_id.
Qed.

Lemma with_session_insert_twice key v1 v2 w :
  with_session (insert key v2) (with_session (insert key v1) w)
  = with_session (insert key v2) w.
Proof.
  destruct w as [d sh ca t n]. unfold with_session. world_fields.
  f_equal. apply insert_insert_eq.
Qed.

(** The loop of the callback on any pending edits: it stops at the first
    edit without the key [Valore], with the edits before it applied. *)
Lemma sync_loop_any df_key (edits : list (Z * gmap string (option Z))) w df :
  session_state w !! df_key = Some (VTeam df) ->
  for_each edits (fun '(row, edit) =>
    v <- lift (dict_getitem edit "Valore") ;;
    session_loc_setitem df_key row ColValore v ;;;
    v' <- lift (dict_getitem edit "Valore") ;;
    session_loc_setitem df_key row ColBarra v') w
  = (with_session (insert df_key (VTeam (apply_edits (edits_before_failure edits) df))) w,
     if forallb has_Valore edits then Returned tt else Raised (KeyError "Valore")).
Proof.
  revert w df. induction edits as [|[row edit] edits IH]; intros w df Hheld.
  - cbn. unfold ret. by rewrite with_session_insert_id.
  - cbn [for_each edits_before_failure forallb fst snd]. unfold has_Valore at 1. cbn [snd].
    destruct (edit !! "Valore") as [v|] eqn:Hv.
    + rewrite bool_decide_eq_true_2 by eauto. cbn [andb].
      unfold bind at 1.
      unfold bind at 1, lift at 1, dict_getitem at 1. rewrite Hv.
      unfold bind at 1, session_loc_setitem at 1, bind at 1, get_session at 1.
      rewrite Hheld. unfold set_session at 1.
      unfold bind at 1, lift at 1, dict_getitem at 1. rewrite Hv.
      unfold session_loc_setitem at 1, bind at 1, get_session at 1.
      cbn [with_session session_state]. rewrite lookup_insert_eq. unfold set_session at 1.
      erewrite IH by (cbn [with_session session_state]; apply lookup_insert_eq).
      by rewrite !with_session_insert_twice.
    + rewrite bool_decide_eq_false_2 by (by intros [? ?]). cbn [andb].
      unfold bind at 1. unfold bind at 1, lift at 1, dict_getitem at 1. rewrite Hv.
      by rewrite with_session_insert_id.
Qed.

Lemma edits_before_failure_app good row bad rest :
  forallb has_Valore good = true ->
  bad !! "Valore" = None ->
  edits_before_failure (good ++ (row, bad) :: rest) = edit_values good /\
  forallb has_Valore (good ++ (row, bad) :: rest) = false.
Proof.
  intros Hgood Hbad. induction good as [|[r e] good IH].
  - cbn. rewrite Hbad. split; [done|]. unfold has_Valore. cbn [snd]. rewrite Hbad.
    by rewrite bool_decide_eq_false_2 by (by intros [? ?]).
  - cbn [forallb] in Hgood. apply andb_prop in Hgood as [He Hgood].
    destruct (IH Hgood) as [IH1 IH2].
    unfold has_Valore in He. cbn [snd] in He. apply bool_decide_eq_true in He as [v Hv].
    cbn [app edits_before_failure forallb fst snd]. unfold edit_values in *.
    cbn [omap list_omap fst snd]. rewrite Hv. cbn. rewrite IH1, IH2.
    split; [done|]. apply andb_false_r.
Qed.

(** X1.  When the pending edits contain one without the key [Valore],
    the callback raises [KeyError('Valore')] at that edit.  The edits
    before it have been applied to the table by then, in both columns,
    and stay applied; the edits after it are not applied.  Nothing else
    in the world changes. *)
Theorem sync_team_stops_at_edit_without_value editor_key df_key w ed good row bad rest df :
  session_state w !! editor_key = Some (VEditor ed) ->
  default [] (edited_rows ed) = good ++ (row, bad) :: rest ->
  session_state w !! df_key = Some (VTeam df) ->
  forallb has_Valore good = true ->
  bad !! "Valore" = None ->
  sync_team editor_key df_key w
  = (with_session (insert df_key (VTeam (apply_edits (edit_values good) df))) w,
     Raised (KeyError "Valore")).
Proof.
  intros Hed Hrows Hdf Hgood Hbad.
  unfold sync_team, bind at 1, get_session. rewrite Hed, Hrows.
  rewrite (sync_loop_any df_key _ w df Hdf).
  destruct (edits_before_failure_app good row bad rest Hgood Hbad) as [-> ->]. done.
Qed.

Lemma sync_team_stops_at_edit_without_value_witness :
  session_state broken_world !! "editor_team1"
  = Some (VEditor {| edited_rows := Some broken_edits |}) /\
  default [] (edited_rows {| edited_rows := Some broken_edits |})
  = [(2, {[ "Valore" := Some 0 ]})] ++ (5, ∅) :: [(6, {[ "Valore" := Some 10 ]})] /\
  session_state broken_world !! "team1_df" = Some (VTeam default_data) /\
  forallb has_Valore [(2, {[ "Valore" := Some 0 ]})] = true /\
  (∅ : gmap string (option Z)) !! "Valore" = None /\
  sync_team "editor_team1" "team1_df" broken_world
  = (with_session
       (insert "team1_df"
          (VTeam (apply_edits (edit_values [(2, {[ "Valore" := Some 0 ]})]) default_data)))
       broken_world,
     Raised (KeyError "Valore")).
Proof.
  split; [vm_compute; reflexivity|]. split; [reflexivity|].
  split; [vm_compute; reflexivity|]. split; [vm_compute; reflexivity|].
  split; [reflexivity|].
  apply (sync_team_stops_at_edit_without_value "editor_team1" "team1_df" broken_world
           {| edited_rows := Some broken_edits |}
           [(2, {[ "Valore" := Some 0 ]})] 5 ∅ [(6, {[ "Valore" := Some 10 ]})] default_data);
    [vm_compute; reflexivity|reflexivity|vm_compute; reflexivity|vm_compute; reflexivity
    |reflexivity].
Defined.

(** Without a table under its key the loop changes nothing. *)
Lemma sync_loop_no_table df_key (edits : list (Z * gmap string (option Z))) w :
  (forall df, session_state w !! df_key <> Some (VTeam df)) ->
  exists o,
    for_each edits (fun '(row, edit) =>
      v <- lift (dict_getitem edit "Valore") ;;
      session_loc_setitem df_key row ColValore v ;;;
      v' <- lift (dict_getitem edit "Valore") ;;
      session_loc_setitem df_key row ColBarra v') w
    = (w, o).
Proof.
  intros Hno. destruct edits as [|[row edit] edits]; [by eexists|].
  cbn [for_each]. unfold bind at 1. unfold bind at 1, lift at 1, dict_getitem at 1.
  destruct (edit !! "Valore") as [v|]; [|by eexists].
  unfold bind at 1, session_loc_setitem at 1, bind at 1, get_session at 1.
  destruct (session_state w !! df_key) as [[df| |]|] eqn:Hheld; try by eexists.
  by destruct (Hno df).
Qed.

Lemma with_session_const w : with_session (fun _ => session_state w) w = w.
Proof. by destruct w. Qed.

(** X2.  Whatever the session holds and whatever the outcome, a callback
    emits nothing, leaves the memo table, the clock and the network alone
    and changes no session key other than the key of its table; when that
    key holds no table, it changes nothing at all. *)
Theorem sync_team_frame editor_key df_key w :
  exists d' o,
    sync_team editor_key df_key w = (with_session (fun _ => d') w, o) /\
    (forall key, key ≠ df_key -> d' !! key = session_state w !! key) /\
    ((forall df, session_state w !! df_key <> Some (VTeam df)) -> d' = session_state w).
Proof.
  unfold sync_team, bind at 1, get_session.
  destruct (session_state w !! editor_key) as [[| |ed]|] eqn:Hed;
    try (exists (session_state w); eexists; rewrite with_session_const; done).
  destruct (session_state w !! df_key) as [held|] eqn:Hheld.
  1: destruct held as [df| |].
  1: { rewrite (sync_loop_any df_key _ w df Hheld).
       eexists _, _. split; [reflexivity|]. split.
       - intros key Hkey. by rewrite lookup_insert_ne.
       - intros Hno. by destruct (Hno df). }
  all: destruct (sync_loop_no_table df_key (default [] (edited_rows ed)) w) as [o ->];
    [intros df; congruence|];
    exists (session_state w), o; by rewrite with_session_const.
Qed.

(** A row of the table after one pass of the loop body either carries
    the edited label and the value in both columns, or is a row the
    table had, under another label. *)
Lemma edit_step_elem l r row v df :
  (l, r) ∈ loc_setitem row ColBarra v (loc_setitem row ColValore v df) ->
  (l = row /\ Valore r = v /\ Barra r = v) \/ (l <> row /\ (l, r) ∈ df).
Proof.
  intros Hin. destruct (decide (l = row)) as [->|Hne].
  - left. split; [done|]. by eapply edit_step_rows.
  - right. split; [done|].
    assert (~ (fun x => x = l) row) as Hrow by (intros Heq; by apply Hne).
    pose proof (loc_setitem_filter row ColValore v (fun x => x = l) df Hrow) as H1.
    pose proof (loc_setitem_filter row ColBarra v (fun x => x = l)
                  (loc_setitem row ColValore v df) Hrow) as H2.
    eapply filter_label_elem; [|exact Hin]. etransitivity; [exact H2|exact H1].
Qed.

Lemma apply_edits_cons row v edits df :
  apply_edits ((row, v) :: edits) df
  = apply_edits edits (loc_setitem row ColBarra v (loc_setitem row ColValore v df)).
Proof. reflexivity. Qed.

Lemma apply_edits_bar_equal edits df :
  Forall (fun lr => Barra lr.2 = Valore lr.2) df ->
  Forall (fun lr => Barra lr.2 = Valore lr.2) (apply_edits edits df).
Proof.
  revert df. induction edits as [|[row v] edits IH]; intros df Hdf; [done|].
  rewrite apply_edits_cons. apply IH. apply Forall_forall. intros [l r] Hin.
  apply edit_step_elem in Hin as [(_ & Hv & Hb)|(_ & Hin)]; cbn [snd].
  - congruence.
  - rewrite Forall_forall in Hdf. apply (Hdf (l, r) Hin).
Qed.

(** X3.  The bar never parts from the value.  When every row of a team
    table has [Barra] equal to [Valore], so has every row of the table
    after the callback, for any pending edits (repeated labels, labels
    outside the index, edits without a value) and in every outcome, the
    exceptional ones included. *)
Theorem sync_team_keeps_bar_equal editor_key df_key w df :
  session_state w !! df_key = Some (VTeam df) ->
  Forall (fun lr => Barra lr.2 = Valore lr.2) df ->
  exists df',
    session_state (sync_team editor_key df_key w).1 !! df_key = Some (VTeam df') /\
    Forall (fun lr => Barra lr.2 = Valore lr.2) df'.
Proof.
  intros Hdf Hinv. unfold sync_team, bind at 1, get_session.
  destruct (session_state w !! editor_key) as [[| |ed]|] eqn:Hed; try (by exists df).
  rewrite (sync_loop_any df_key _ w df Hdf). cbn [fst with_session session_state].
  eexists. split; [apply lookup_insert_eq|]. by apply apply_edits_bar_equal.
Qed.

Lemma default_data_bar_equal : Forall (fun lr => Barra lr.2 = Valore lr.2) default_data.
Proof. repeat constructor. Qed.

Lemma sync_team_keeps_bar_equal_witness :
  session_state broken_world !! "team1_df" = Some (VTeam default_data) /\
  Forall (fun lr => Barra lr.2 = Valore lr.2) default_data /\
  exists df',
    session_state (sync_team "editor_team1" "team1_df" broken_world).1 !! "team1_df"
    = Some (VTeam df') /\
    Forall (fun lr => Barra lr.2 = Valore lr.2) df'.
Proof.
  split; [vm_compute; reflexivity|]. split; [apply default_data_bar_equal|].
  apply (sync_team_keeps_bar_equal "editor_team1" "team1_df" broken_world default_data);
    [vm_compute; reflexivity|apply default_data_bar_equal].
Defined.

(** ** Rows are only ever appended *)

Lemma in_index_identity row (df : list (Z * FactorRow)) :
  in_index row df = true <-> row ∈ (row_identity <$> df).*1.
Proof.
  rewrite in_index_elem. split.
  - intros [r Hr]. apply list_elem_of_fmap. exists (row, Fattore r). split; [done|].
    apply list_elem_of_fmap. by exists (row, r).
  - intros Hin. apply list_elem_of_fmap in Hin as ([l f] & -> & Hin).
    apply list_elem_of_fmap in Hin as ([l' r] & [= -> ->] & Hin). by exists r.
Qed.

Lemma loc_setitem_identity row col v df :
  row_identity <$> loc_setitem row col v df
  = (row_identity <$> df) ++ (if in_index row df then [] else [(row, None)]).
Proof.
  unfold loc_setitem. destruct (in_index row df).
  - rewrite app_nil_r. induction df as [|[l r] df IH]; [done|].
    cbn [map fmap list_fmap]. f_equal; [|exact IH].
    unfold loc_assign. cbn [fst snd]. destruct (l =? row); [|done]. by destruct col.
  - rewrite fmap_app. f_equal. by destruct col.
Qed.

Lemma edit_step_identity row v df :
  row_identity <$> loc_setitem row ColBarra v (loc_setitem row ColValore v df)
  = (row_identity <$> df) ++ (if in_index row df then [] else [(row, None)]).
Proof.
  rewrite (loc_setitem_identity row ColBarra), loc_setitem_in_index, app_nil_r.
  apply loc_setitem_identity.
Qed.

Lemma apply_edits_identity edits df :
  exists extra,
    row_identity <$> apply_edits edits df = (row_identity <$> df) ++ extra /\
    Forall (fun lf => lf.2 = None) extra /\
    (Forall (fun rv => in_index rv.1 df = true) edits -> extra = []).
Proof.
  revert df. induction edits as [|[row v] edits IH]; intros df.
  - exists []. by rewrite app_nil_r.
  - rewrite apply_edits_cons.
    set (df1 := loc_setitem row ColBarra v (loc_setitem row ColValore v df)).
    destruct (IH df1) as (extra & Hids & Hnone & Hin).
    pose proof (edit_step_identity row v df) as Hstep. fold df1 in Hstep.
    exists ((if in_index row df then [] else [(row, None)]) ++ extra). split_and!.
    + by rewrite Hids, Hstep, app_assoc.
    + apply Forall_app. split; [|done]. destruct (in_index row df); repeat constructor.
    + intros Hall. apply Forall_cons in Hall as [Hrow Hall]. cbn [fst] in Hrow.
      rewrite Hrow. cbn [app]. apply Hin.
      eapply Forall_impl; [exact Hall|]. intros [r' v'] Hr'. cbn [fst] in *.
      apply in_index_identity. rewrite Hstep, Hrow, app_nil_r.
      by apply in_index_identity.
Qed.

Lemma edits_before_failure_labels (P : Z -> Prop) edits :
  Forall (fun re => P re.1) edits -> Forall (fun rv => P rv.1) (edits_before_failure edits).
Proof.
  induction 1 as [|[row edit] edits Hrow Hall IH]; [constructor|].
  cbn [edits_before_failure fst snd]. destruct (edit !! "Valore"); by constructor.
Qed.

(** X4.  The callback never removes a row, never moves one and never
    changes a label or a factor name: the rows of the table before are
    the first rows of the table after, label and [Fattore] unchanged, in
    every outcome.  Rows are added only at the end, without a factor
    name, and none is added when every pending label is in the index. *)
Theorem sync_team_only_appends_rows editor_key df_key w ed df :
  session_state w !! editor_key = Some (VEditor ed) ->
  session_state w !! df_key = Some (VTeam df) ->
  exists df' extra,
    session_state (sync_team editor_key df_key w).1 !! df_key = Some (VTeam df') /\
    row_identity <$> df' = (row_identity <$> df) ++ extra /\
    Forall (fun lf => lf.2 = None) extra /\
    (Forall (fun re => in_index re.1 df = true) (default [] (edited_rows ed)) ->
     extra = [] /\ length df' = length df).
Proof.
  intros Hed Hdf. unfold sync_team, bind at 1, get_session. rewrite Hed.
  rewrite (sync_loop_any df_key _ w df Hdf). cbn [fst with_session session_state].
  destruct (apply_edits_identity (edits_before_failure (default [] (edited_rows ed))) df)
    as (extra & Hids & Hnone & Hin).
  eexists _, extra. split_and!; [apply lookup_insert_eq|done..|].
  intros Hall. apply (edits_before_failure_labels (fun r => in_index r df = true)) in Hall.
  specialize (Hin Hall). split; [done|].
  rewrite Hin, app_nil_r in Hids. apply (f_equal length) in Hids.
  by rewrite !length_fmap in Hids.
Qed.

Lemma sync_team_only_appends_rows_witness :
  session_state edited_world !! "editor_team1"
  = Some (VEditor {| edited_rows := Some sample_edits |}) /\
  session_state edited_world !! "team1_df" = Some (VTeam default_data) /\
  exists df' extra,
    session_state (sync_team "editor_team1" "team1_df" edited_world).1 !! "team1_df"
    = Some (VTeam df') /\
    row_identity <$> df' = (row_identity <$> default_data) ++ extra /\
    Forall (fun lf => lf.2 = None) extra /\
    (Forall (fun re => in_index re.1 default_data = true)
            (default [] (edited_rows {| edited_rows := Some sample_edits |})) ->
     extra = [] /\ length df' = length default_data).
Proof.
  split; [vm_compute; reflexivity|]. split; [vm_compute; reflexivity|].
  apply (sync_team_only_appends_rows "editor_team1" "team1_df" edited_world
           {| edited_rows := Some sample_edits |} default_data);
    vm_compute; reflexivity.
Defined.

(** ** Edits and the game-over check together *)

Lemma edit_values_all (edits : list (Z * gmap string (option Z))) row v :
  (row, v) ∈ edit_values edits ->
  exists edit, (row, edit) ∈ edits /\ edit !! "Valore" = Some v.
Proof.
  unfold edit_values. intros Hin. apply list_elem_of_omap in Hin as ([r e] & Hin & Hv).
  cbn [fst snd] in Hv. destruct (e !! "Valore") as [v'|] eqn:He; [|done].
  injection Hv as -> ->. by exists e.
Qed.

Lemma forallb_has_Valore (edits : list (Z * gmap string (option Z))) :
  forallb has_Valore edits = true ->
  forall row edit, (row, edit) ∈ edits -> is_Some (edit !! "Valore").
Proof.
  intros Hall row edit Hin. rewrite forallb_forall in Hall.
  apply list_elem_of_In, Hall in Hin. unfold has_Valore in Hin.
  by apply bool_decide_eq_true in Hin.
Qed.

(** Which rows are critical after the edits have been applied. *)
Lemma apply_edits_critical edits df :
  NoDup edits.*1 ->
  has_critical_factor (apply_edits edits df) = true <->
  (exists row v, (row, Some v) ∈ edits /\ v <= 0) \/
  (exists l r v, (l, r) ∈ df /\ (l ∉ edits.*1) /\ Valore r = Some v /\ v <= 0).
Proof.
  intros Hnodup. rewrite has_critical_factor_iff.
  assert (forall l, l ∉ edits.*1 ->
            filter (fun lr => lr.1 = l) (apply_edits edits df)
            = filter (fun lr => lr.1 = l) df) as Hsame.
  { intros l Hl. pose proof (apply_edits_filter (fun x => x = l) edits df) as H.
    apply H. intros row v Hin ->. apply Hl. apply list_elem_of_fmap. by exists (l, v). }
  split.
  - intros (l & r & v & Hin & Hv & Hle).
    destruct (decide (l ∈ edits.*1)) as [Hl|Hl].
    + left. apply list_elem_of_fmap in Hl as ([l' ov] & -> & Hedit). cbn [fst] in *.
      destruct (apply_edits_edited edits df l' ov Hnodup Hedit) as [_ Hrows].
      destruct (Hrows r Hin) as [Hval _]. exists l', v. split; [congruence|done].
    + right. exists l, r, v. split_and!; [|done..].
      eapply filter_label_elem; [exact (Hsame l Hl)|done].
  - intros [(row & v & Hedit & Hle)|(l & r & v & Hin & Hl & Hv & Hle)].
    + destruct (apply_edits_edited edits df row (Some v) Hnodup Hedit) as [Hidx Hrows].
      apply in_index_elem in Hidx as [r Hr]. destruct (Hrows r Hr) as [Hval _].
      by exists row, r, v.
    + exists l, r, v. split_and!; [|done..].
      eapply filter_label_elem; [symmetry; exact (Hsame l Hl)|done].
Qed.

(** X5.  The callback of team 1 followed by the game-over check, for
    pending edits with distinct labels that all carry the key [Valore]:
    the check returns true exactly when an incoming value is at most 0,
    or a row of team 1 that is not edited was already at most 0, or
    team 2 has a value at most 0.  So one edit to 0 ends the game, and
    raising every critical row of team 1 above 0 lifts the verdict for
    team 1. *)
Theorem game_over_after_sync w ed edits team1_df team2_df :
  session_state w !! "editor_team1" = Some (VEditor ed) ->
  default [] (edited_rows ed) = edits ->
  session_state w !! "team1_df" = Some (VTeam team1_df) ->
  session_state w !! "team2_df" = Some (VTeam team2_df) ->
  NoDup edits.*1 ->
  forallb has_Valore edits = true ->
  exists game_over,
    ((sync_team1 ;;; game_over_check) w).2 = Returned game_over /\
    (game_over = true <->
     (exists row edit v, (row, edit) ∈ edits /\ edit !! "Valore" = Some (Some v) /\ v <= 0) \/
     (exists l r v, (l, r) ∈ team1_df /\ (l ∉ edits.*1) /\ Valore r = Some v /\ v <= 0) \/
     has_critical_factor team2_df = true).
Proof.
  intros Hed Hedits H1 H2 Hnodup Hall.
  pose proof (forallb_has_Valore edits Hall) as Hkeys.
  set (team1_df' := apply_edits (edit_values edits) team1_df).
  assert (sync_team1 w = (with_session (insert "team1_df" (VTeam team1_df')) w, Returned tt))
    as Hsync.
  { unfold sync_team1, sync_team, bind at 1, get_session. rewrite Hed, Hedits.
    by apply sync_loop_run. }
  exists (has_critical_factor team1_df' || has_critical_factor team2_df). split.
  - unfold bind. rewrite Hsync.
    rewrite (game_over_check_run _ team1_df' team2_df); [done| |].
    + cbn [with_session session_state]. apply lookup_insert_eq.
    + cbn [with_session session_state]. by rewrite lookup_insert_ne.
  - rewrite orb_true_iff. subst team1_df'.
    rewrite apply_edits_critical by (by rewrite edit_values_keys).
    rewrite (edit_values_keys edits Hkeys). split.
    + intros [[(row & v & Hin & Hle)|Hold]|Hteam2]; [|by right; left|by right; right].
      left. apply edit_values_all in Hin as (edit & Hin & Hv). by exists row, edit, v.
    + intros [(row & edit & v & Hin & Hv & Hle)|[Hold|Hteam2]];
        [|by left; right|by right].
      left. left. exists row, v. split; [|done]. by eapply edit_values_elem.
Qed.

Lemma game_over_after_sync_witness :
  session_state edited_world !! "editor_team1"
  = Some (VEditor {| edited_rows := Some sample_edits |}) /\
  default [] (edited_rows {| edited_rows := Some sample_edits |}) = sample_edits /\
  session_state edited_world !! "team1_df" = Some (VTeam default_data) /\
  session_state edited_world !! "team2_df" = Some (VTeam default_data) /\
  NoDup sample_edits.*1 /\
  forallb has_Valore sample_edits = true /\
  exists game_over,
    ((sync_team1 ;;; game_over_check) edited_world).2 = Returned game_over /\
    (game_over = true <->
     (exists row edit v,
         (row, edit) ∈ sample_edits /\ edit !! "Valore" = Some (Some v) /\ v <= 0) \/
     (exists l r v,
         (l, r) ∈ default_data /\ (l ∉ sample_edits.*1) /\ Valore r = Some v /\ v <= 0) \/
     has_critical_factor default_data = true).
Proof.
  assert (NoDup sample_edits.*1) as Hnodup.
  { apply (bool_decide_unpack _). vm_compute. exact I. }
  split; [vm_compute; reflexivity|]. split; [reflexivity|].
  split; [vm_compute; reflexivity|]. split; [vm_compute; reflexivity|].
  split; [exact Hnodup|]. split; [vm_compute; reflexivity|].
  apply (game_over_after_sync edited_world {| edited_rows := Some sample_edits |}
           sample_edits default_data default_data);
    [vm_compute; reflexivity|reflexivity|vm_compute; reflexivity|vm_compute; reflexivity
    |exact Hnodup|vm_compute; reflexivity].
Defined.

(** ** Cutting the sharing link *)

Lemma string_app_assoc (a b c : string) : (a +:+ b) +:+ c = a +:+ (b +:+ c).
Proof.
  induction a as [|x a IH]; [done|].
  change (String x ((a +:+ b) +:+ c) = String x (a +:+ (b +:+ c))). by rewrite IH.
Qed.

Lemma string_app_length (a b : string) :
  String.length (a +:+ b) = (String.length a + String.length b)%nat.
Proof.
  induction a as [|x a IH]; [done|].
  change (S (String.length (a +:+ b)) = S (String.length a + String.length b)).
  by rewrite IH.
Qed.

Lemma prefix_nil s : String.prefix EmptyString s = true.
Proof. by destruct s. Qed.

Lemma prefix_cons a sep b s :
  String.prefix (String a sep) (String b s)
  = if ascii_dec a b then String.prefix sep s else false.
Proof. cbn. by destruct (ascii_dec a b). Qed.

Lemma prefix_app_same sep s : String.prefix sep (sep +:+ s) = true.
Proof.
  induction sep as [|a sep IH]; [apply prefix_nil|].
  change (String a sep +:+ s) with (String a (sep +:+ s)).
  rewrite prefix_cons. by destruct (ascii_dec a a).
Qed.

Lemma prefix_split sep s : String.prefix sep s = true -> exists t, s = sep +:+ t.
Proof.
  revert s. induction sep as [|a sep IH]; intros s H; [by exists s|].
  destruct s as [|b s]; [done|]. rewrite prefix_cons in H.
  destruct (ascii_dec a b) as [->|]; [|done].
  destruct (IH s H) as [t ->]. by exists t.
Qed.

(** Whether [sep] starts a string is settled by the first bytes. *)
Lemma prefix_app_long sep x y :
  (String.length sep <= String.length x)%nat ->
  String.prefix sep (x +:+ y) = String.prefix sep x.
Proof.
  revert x. induction sep as [|a sep IH]; intros x Hlen.
  - by rewrite !prefix_nil.
  - destruct x as [|b x]; [cbn in Hlen; lia|].
    change (String b x +:+ y) with (String b (x +:+ y)). rewrite !prefix_cons.
    destruct (ascii_dec a b); [|done]. apply IH. cbn in Hlen. lia.
Qed.

Lemma split_go_skip sep t s :
  PyStr.split_go sep (String.length t) (t +:+ s) = PyStr.split_go sep 0 s.
Proof. induction t as [|c t IH]; [done|]. exact IH. Qed.

(** a match at the head of the string *)
Lemma split_match sep s :
  sep <> EmptyString ->
  PyStr.split sep (sep +:+ s) = EmptyString :: PyStr.split sep s.
Proof.
  intros Hsep. destruct sep as [|a sep]; [done|]. unfold PyStr.split.
  change (String a sep +:+ s) with (String a (sep +:+ s)).
  cbn [PyStr.split_go].
  change (String a (sep +:+ s)) with (String a sep +:+ s).
  rewrite prefix_app_same. cbn [String.length Nat.pred]. by rewrite split_go_skip.
Qed.

(** no match at the head of the string *)
Lemma split_no_match sep c s :
  String.prefix sep (String c s) = false ->
  exists piece pieces,
    PyStr.split sep s = piece :: pieces /\
    PyStr.split sep (String c s) = String c piece :: pieces.
Proof.
  intros H. destruct (split_cons sep s) as (piece & pieces & Hs).
  exists piece, pieces. split; [done|]. unfold PyStr.split in *.
  cbn [PyStr.split_go]. by rewrite H, Hs.
Qed.

(** [split] cuts at the first occurrence of the separator: when no
    occurrence starts inside [p], the first piece of [p + sep + s] is
    [p] and the rest is the split of [s]. *)
Lemma split_at_first sep init last p s :
  sep = init +:+ String last EmptyString ->
  PyStr.contains sep (p +:+ init) = false ->
  PyStr.split sep (p +:+ sep +:+ s) = p :: PyStr.split sep s.
Proof.
  intros Hsep. induction p as [|c p IH]; intros Hfree.
  - change (EmptyString +:+ sep +:+ s) with (sep +:+ s).
    apply split_match. rewrite Hsep. by destruct init.
  - change (String c p +:+ init) with (String c (p +:+ init)) in Hfree.
    apply contains_cons_false in Hfree as [Hhead Hfree].
    assert (String.prefix sep (String c (p +:+ sep +:+ s)) = false) as Hno.
    { assert (String c (p +:+ sep +:+ s)
              = String c (p +:+ init) +:+ (String last EmptyString +:+ s)) as ->.
      { change (String c (p +:+ init) +:+ (String last EmptyString +:+ s))
          with (String c ((p +:+ init) +:+ (String last EmptyString +:+ s))).
        f_equal. rewrite Hsep at 1. by rewrite !string_app_assoc. }
      rewrite prefix_app_long; [exact Hhead|].
      rewrite Hsep. cbn [String.length]. rewrite !string_app_length. cbn. lia. }
    change (String c p +:+ sep +:+ s) with (String c (p +:+ sep +:+ s)).
    destruct (split_no_match sep c _ Hno) as (piece & pieces & Hs & ->).
    rewrite (IH Hfree) in Hs. by injection Hs as <- <-.
Qed.

(** first piece of a split *)
Lemma split_first_no_match sep c s :
  String.prefix sep (String c s) = false ->
  List.hd EmptyString (PyStr.split sep (String c s))
  = String c (List.hd EmptyString (PyStr.split sep s)).
Proof.
  intros H. destruct (split_no_match sep c s H) as (piece & pieces & -> & ->). done.
Qed.

Lemma split_first_match sep s :
  sep <> EmptyString -> String.prefix sep s = true ->
  List.hd EmptyString (PyStr.split sep s) = EmptyString.
Proof.
  intros Hsep H. destruct (prefix_split sep s H) as [t ->]. by rewrite split_match.
Qed.

Lemma prefix_other_head sep a c s :
  a <> c -> String.prefix (String a sep) (String c s) = false.
Proof. intros Hne. rewrite prefix_cons. by destruct (ascii_dec a c). Qed.

Lemma contains_slash_head c s :
  PyStr.contains "/" (String c s) = false -> "/"%char <> c /\ PyStr.contains "/" s = false.
Proof.
  intros H. apply contains_cons_false in H as [Hhead H]. split; [|done].
  intros <-. rewrite prefix_cons, prefix_nil in Hhead.
  by destruct (ascii_dec "/" "/").
Qed.

(** The identifier is what stands between the first [/d/] and the next
    [/], or the end of the link. *)
Lemma file_id_of_rest file_id tail :
  PyStr.contains "/" file_id = false ->
  tail = EmptyString \/ (exists rest, tail = "/" +:+ rest) ->
  export_url_after_d (List.hd EmptyString (PyStr.split "/d/" (file_id +:+ tail)))
  = export_url_of file_id.
Proof.
  intros Hid Htail. unfold export_url_after_d. f_equal.
  induction file_id as [|c x IH].
  - change (EmptyString +:+ tail) with tail. destruct Htail as [->|[rest ->]]; [done|].
    change ("/" +:+ rest) with (String "/" rest).
    destruct (String.prefix "/d/" (String "/" rest)) eqn:Hp.
    + by rewrite (split_first_match "/d/" _ ltac:(done) Hp).
    + rewrite (split_first_no_match _ _ _ Hp).
      apply split_first_match; [done|]. rewrite prefix_cons, prefix_nil.
      by destruct (ascii_dec "/" "/").
  - apply contains_slash_head in Hid as [Hc Hid].
    change (String c x +:+ tail) with (String c (x +:+ tail)).
    rewrite split_first_no_match by (by apply prefix_other_head).
    rewrite split_first_no_match by (by apply prefix_other_head).
    by rewrite (IH Hid).
Qed.

Lemma split_link_second pre x :
  PyStr.contains "/d/" (pre +:+ "/d") = false ->
  PyStr.split "/d/" (pre +:+ "/d/" +:+ x) !! 1%nat
  = Some (List.hd EmptyString (PyStr.split "/d/" x)).
Proof.
  intros Hpre. rewrite (split_at_first "/d/" "/d" "/" pre) by done.
  by destruct (split_cons "/d/" x) as (piece & pieces & ->).
Qed.

(** X6.  For a sharing link of the form [pre/d/ID] or [pre/d/ID/...],
    where [/d/] does not occur earlier and [ID] has no [/], the function
    downloads exactly the export of [ID] as xlsx from docs.google.com,
    once, and its result follows the answer of the network: the sheet
    when it has the column [imprevisto], [None] with the missing-column
    message when it has not, [None] with the load error carrying the
    text of the exception when the download or the parser raises. *)
Theorem load_downloads_export_of_file_id pre file_id tail w :
  PyStr.contains "google.com" (pre +:+ "/d/" +:+ file_id +:+ tail) = true ->
  PyStr.contains "/d/" (pre +:+ "/d") = false ->
  PyStr.contains "/" file_id = false ->
  tail = EmptyString \/ (exists rest, tail = "/" +:+ rest) ->
  load_data_from_gdrive (pre +:+ "/d/" +:+ file_id +:+ tail) w
  = match net w (export_url_of file_id) with
    | inr df =>
        if bool_decide (is_Some (df_columns df !! "imprevisto"))
        then (shows [logger_debug ("Scaricando file da: " +:+ export_url_of file_id);
                     http_get (export_url_of file_id)] w,
              Returned (Some df))
        else (shows [logger_debug ("Scaricando file da: " +:+ export_url_of file_id);
                     http_get (export_url_of file_id);
                     st_error msg_missing_column] w,
              Returned None)
    | inl msg =>
        (shows [logger_debug ("Scaricando file da: " +:+ export_url_of file_id);
                http_get (export_url_of file_id);
                st_error (msg_load_failed (ReadError msg));
                st_info msg_sharing_hint] w,
         Returned None)
    end.
Proof.
  intros Hhost Hpre Hid Htail.
  pose proof (split_link_second pre (file_id +:+ tail) Hpre) as Hsplit.
  pose proof (file_id_of_rest file_id tail Hid Htail) as Hexport.
  destruct (net w (export_url_of file_id)) as [msg|df] eqn:Hnet.
  - rewrite (load_fetch_failed _ w _ Hhost Hsplit msg); rewrite Hexport; done.
  - destruct (df_columns df !! "imprevisto") as [series|] eqn:Hcol.
    + rewrite bool_decide_eq_true_2 by eauto.
      rewrite (load_returns_sheet _ w _ Hhost Hsplit df series); rewrite ?Hexport; done.
    + rewrite bool_decide_eq_false_2 by (by intros [? ?]).
      rewrite (load_missing_column _ w _ Hhost Hsplit df); rewrite ?Hexport; done.
Qed.

Lemma load_downloads_export_of_file_id_witness :
  PyStr.contains "google.com"
    ("https://docs.google.com/spreadsheets" +:+ "/d/" +:+ "ABC" +:+ "/edit?usp=sharing")
  = true /\
  PyStr.contains "/d/" ("https://docs.google.com/spreadsheets" +:+ "/d") = false /\
  PyStr.contains "/" "ABC" = false /\
  ("/edit?usp=sharing" = EmptyString \/
   (exists rest, "/edit?usp=sharing" = "/" +:+ rest)) /\
  load_data_from_gdrive
    ("https://docs.google.com/spreadsheets" +:+ "/d/" +:+ "ABC" +:+ "/edit?usp=sharing")
    fresh_world
  = (shows [logger_debug ("Scaricando file da: " +:+ export_url_of "ABC");
            http_get (export_url_of "ABC")] fresh_world,
     Returned (Some sample_sheet)).
Proof.
  split; [reflexivity|]. split; [reflexivity|]. split; [reflexivity|].
  split; [right; by exists "edit?usp=sharing"%string|].
  exact (load_downloads_export_of_file_id
           "https://docs.google.com/spreadsheets" "ABC" "/edit?usp=sharing" fresh_world
           eq_refl eq_refl eq_refl
           (or_intror (ex_intro _ "edit?usp=sharing"%string eq_refl))).
Defined.

Lemma split_first_without_slash s :
  PyStr.contains "/" (List.hd EmptyString (PyStr.split "/" s)) = false.
Proof.
  induction s as [|c s IH]; [done|].
  destruct (String.prefix "/" (String c s)) eqn:Hp.
  - by rewrite split_first_match.
  - rewrite (split_first_no_match _ _ _ Hp).
    change (PyStr.contains "/" (String c (List.hd EmptyString (PyStr.split "/" s))))
      with (String.prefix "/" (String c (List.hd EmptyString (PyStr.split "/" s)))
            || PyStr.contains "/" (List.hd EmptyString (PyStr.split "/" s))).
    rewrite IH, orb_false_r. rewrite prefix_cons in *.
    destruct (ascii_dec "/" c); [|done]. by rewrite prefix_nil in Hp.
Qed.

(** X7.  Whatever the user types into the URL field, one call of the
    function downloads at most once, and what it downloads is the xlsx
    export of some identifier without [/] under
    [https://docs.google.com/spreadsheets/d/]: no other host is ever
    contacted.  The call only emits; the session, the memo table, the
    clock and the network are as before. *)
Theorem load_downloads_only_google_export url w :
  exists evs data,
    load_data_from_gdrive url w = (shows evs w, Returned data) /\
    (downloads evs = [] \/
     exists file_id,
       PyStr.contains "/" file_id = false /\
       downloads evs = [export_url_of file_id] /\
       String.prefix "https://docs.google.com/spreadsheets/d/" (export_url_of file_id) = true).
Proof.
  destruct (PyStr.contains "google.com" url) eqn:Hhost.
  2: { eexists _, _. split; [by apply load_invalid_url|]. by left. }
  destruct (PyStr.split "/d/" url !! 1%nat) as [rest|] eqn:Hsplit.
  2: { eexists _, _. split; [by apply load_malformed_url|]. by left. }
  assert (exists file_id,
             export_url_after_d rest = export_url_of file_id /\
             PyStr.contains "/" file_id = false /\
             String.prefix "https://docs.google.com/spreadsheets/d/"
               (export_url_of file_id) = true) as (file_id & Hexport & Hid & Hpre).
  { eexists. split; [reflexivity|]. split; [apply split_first_without_slash|].
    apply prefix_app_same. }
  destruct (net w (export_url_after_d rest)) as [msg|df] eqn:Hnet.
  { eexists _, _. split; [by eapply load_fetch_failed|].
    right. exists file_id. rewrite Hexport. done. }
  destruct (df_columns df !! "imprevisto") as [series|] eqn:Hcol.
  - eexists _, _. split; [by eapply load_returns_sheet|].
    right. exists file_id. rewrite Hexport. done.
  - eexists _, _. split; [by eapply load_missing_column|].
    right. exists file_id. rewrite Hexport. done.
Qed.

(** ** The draw and the empty catalog *)

(** The draw on a catalog with at least one event: the outcome is the
    outcome of the indexing. *)
Lemma draw_event_run w df event_list i :
  session_state w !! "imprevisti_df" = Some (VData (Some df)) ->
  event_list_of df = Returned event_list ->
  event_list <> [] ->
  draw_event i w
  = match py_getitem event_list (i - 1) with
    | Returned chosen_event =>
        (shows [logger_debug ("Numero imprevisto selezionato: " +:+ PyStr.str_int i);
                st_warning (msg_drawn chosen_event)] w,
         Returned chosen_event)
    | Raised e =>
        (shows [logger_debug ("Numero imprevisto selezionato: " +:+ PyStr.str_int i)] w,
         Raised e)
    end.
Proof.
  intros Hheld Hlist Hne. unfold draw_event, bind, get_session, lift.
  rewrite Hheld, Hlist. destruct event_list as [|e0 events]; [done|].
  cbn [emit ret]. unfold shows, with_shown. world_fields.
  destruct (py_getitem (e0 :: events) (i - 1)); [|done].
  world_fields. by rewrite <- app_assoc.
Qed.

Lemma dropna_tolist_nil (series : list (option scalar)) :
  dropna_tolist series = [] <-> Forall (fun c => c = None) series.
Proof.
  unfold dropna_tolist. induction series as [|[v|] series IH].
  - done.
  - split; [done|]. intros H. by apply Forall_cons in H as [? _].
  - cbn. rewrite IH. split; [by constructor|]. intros H. by apply Forall_cons in H as [_ ?].
Qed.

(** X9.  With a sheet in the session that has the column, the draw
    stops the script (the exception of [st.stop()]) exactly when the
    column has no cell that is not missing; it then shows the warning
    that no event was found and nothing else, whatever the number. *)
Theorem draw_event_stops_iff_no_event w df series i :
  session_state w !! "imprevisti_df" = Some (VData (Some df)) ->
  df_columns df !! "imprevisto" = Some series ->
  ((draw_event i w).2 = Raised StopException <-> Forall (fun c => c = None) series) /\
  (Forall (fun c => c = None) series ->
   draw_event i w = (shows [st_warning msg_no_events] w, Raised StopException)).
Proof.
  intros Hheld Hcol.
  assert (event_list_of df = Returned (dropna_tolist series)) as Hlist.
  { unfold event_list_of, dict_getitem. by rewrite Hcol. }
  assert (Forall (fun c => c = None) series ->
          draw_event i w = (shows [st_warning msg_no_events] w, Raised StopException))
    as Hstop.
  { intros Hnone. apply dropna_tolist_nil in Hnone.
    unfold draw_event, bind, get_session, lift. rewrite Hheld, Hlist, Hnone. done. }
  split; [|done]. split.
  - intros Hraised. apply dropna_tolist_nil.
    destruct (dropna_tolist series) as [|e0 events] eqn:Hevents; [done|].
    rewrite (draw_event_run w df (e0 :: events) i Hheld Hlist) in Hraised by done.
    destruct (py_getitem (e0 :: events) (i - 1)) as [x|e] eqn:Hget; [done|].
    cbn [snd] in Hraised. injection Hraised as ->.
    unfold py_getitem in Hget. repeat case_match; done.
  - intros Hnone. by rewrite Hstop.
Qed.

Lemma draw_event_stops_iff_no_event_witness :
  session_state blank_world !! "imprevisti_df" = Some (VData (Some sheet_of_blanks)) /\
  df_columns sheet_of_blanks !! "imprevisto" = Some [None; None] /\
  ((draw_event 1 blank_world).2 = Raised StopException <->
   Forall (fun c : option scalar => c = None) [None; None]) /\
  (Forall (fun c : option scalar => c = None) [None; None] ->
   draw_event 1 blank_world
   = (shows [st_warning msg_no_events] blank_world, Raised StopException)).
Proof.
  split; [vm_compute; reflexivity|]. split; [reflexivity|].
  apply (draw_event_stops_iff_no_event blank_world sheet_of_blanks [None; None] 1);
    [vm_compute; reflexivity|reflexivity].
Defined.

(** ** One run of the script *)

Lemma shows_shows evs1 evs2 w : shows evs2 (shows evs1 w) = shows (evs1 ++ evs2) w.
Proof. unfold shows. world_fields. by rewrite app_assoc. Qed.

Lemma initialize_state_returns w :
  initialize_state w = ((initialize_state w).1, Returned tt).
Proof. by rewrite initialize_state_run. Qed.

(** X10.  A click on the load button whose load fails closes the game
    panel: the run ends, without an exception, with the catalog set to
    [None] and the prompt to enter a URL as the last thing shown, and
    neither the game-over check nor the draw takes place.  This is so
    also when a catalog was loaded and a game was under way. *)
Theorem script_run_failed_click w gdrive_url selected_event w1 :
  PyStr.truthy gdrive_url = true ->
  load_data_from_gdrive_cached gdrive_url (initialize_state w).1 = (w1, Returned None) ->
  script_run true gdrive_url selected_event w
  = (shows [st_info msg_prompt] (with_session (insert "imprevisti_df" (VData None)) w1),
     Returned tt).
Proof.
  intros Htruthy Hload. unfold script_run, bind at 1. rewrite initialize_state_returns.
  unfold bind at 1, on_load_button. rewrite Htruthy. unfold bind at 1. rewrite Hload.
  unfold set_session, bind, get_session. cbn [with_session session_state].
  rewrite lookup_insert_eq. reflexivity.
Qed.

Lemma script_run_failed_click_witness :
  PyStr.truthy url_not_google = true /\
  load_data_from_gdrive_cached url_not_google (initialize_state loaded_world).1
  = ((load_data_from_gdrive_cached url_not_google (initialize_state loaded_world).1).1,
     Returned None) /\
  session_state loaded_world !! "imprevisti_df" = Some (VData (Some sample_sheet)) /\
  script_run true url_not_google 2 loaded_world
  = (shows [st_info msg_prompt]
       (with_session (insert "imprevisti_df" (VData None))
          (load_data_from_gdrive_cached url_not_google (initialize_state loaded_world).1).1),
     Returned tt).
Proof.
  split; [reflexivity|]. split; [vm_compute; reflexivity|].
  split; [vm_compute; reflexivity|].
  apply (script_run_failed_click loaded_world url_not_google 2);
    [reflexivity|vm_compute; reflexivity].
Defined.

(** X11.  With a catalog in the session after the load step, the run
    goes through the game-over check and then the draw, and a game that
    is over does not stop the draw: for a number within the catalog the
    run shows the game-over message of each team that has a value at
    most 0, then the drawn event, then, when the game is over, the
    notice that the game has ended, and returns without an exception. *)
Theorem script_run_panel (clicked : bool) gdrive_url selected_event w w1 df event_list
    team1_df team2_df :
  (if clicked then on_load_button gdrive_url else ret tt) (initialize_state w).1
  = (w1, Returned tt) ->
  session_state w1 !! "imprevisti_df" = Some (VData (Some df)) ->
  session_state w1 !! "team1_df" = Some (VTeam team1_df) ->
  session_state w1 !! "team2_df" = Some (VTeam team2_df) ->
  event_list_of df = Returned event_list ->
  1 <= selected_event <= Z.of_nat (length event_list) ->
  exists chosen_event,
    event_list !! Z.to_nat (selected_event - 1) = Some chosen_event /\
    script_run clicked gdrive_url selected_event w
    = (shows ((if has_critical_factor team1_df
               then [st_error msg_game_over_1; st_balloons] else [])
              ++ (if has_critical_factor team2_df
                  then [st_error msg_game_over_2; st_balloons] else [])
              ++ [logger_debug ("Numero imprevisto selezionato: "
                                +:+ PyStr.str_int selected_event);
                  st_warning (msg_drawn chosen_event)]
              ++ (if has_critical_factor team1_df || has_critical_factor team2_df
                  then [st_warning msg_finished] else [])) w1,
       Returned tt).
Proof.
  intros Hstep Hheld H1 H2 Hlist Hi.
  destruct (lookup_lt_is_Some_2 event_list (Z.to_nat (selected_event - 1)))
    as [chosen Hchosen]; [lia|].
  exists chosen. split; [done|].
  unfold script_run, bind at 1. rewrite initialize_state_returns.
  unfold bind at 1. rewrite Hstep.
  unfold bind at 1, get_session. rewrite Hheld.
  unfold bind at 1. rewrite (game_over_check_run w1 team1_df team2_df H1 H2).
  unfold bind at 1.
  rewrite (draw_event_run _ df event_list selected_event); [|done..|].
  2: { intros ->. cbn in Hi. lia. }
  rewrite py_getitem_nonneg by lia. rewrite Hchosen.
  destruct (has_critical_factor team1_df || has_critical_factor team2_df).
  - unfold emit, with_shown, shows. world_fields. by rewrite <- !app_assoc.
  - unfold ret. rewrite shows_shows, app_nil_r. by rewrite <- !app_assoc.
Qed.

Lemma script_run_panel_witness :
  (if false then on_load_button url_ABC else ret tt) (initialize_state synced_world).1
  = (synced_world, Returned tt) /\
  session_state synced_world !! "imprevisti_df" = Some (VData (Some sample_sheet)) /\
  session_state synced_world !! "team1_df"
  = Some (VTeam (apply_edits [(2, Some 0); (5, Some 40)] default_data)) /\
  session_state synced_world !! "team2_df" = Some (VTeam default_data) /\
  event_list_of sample_sheet = Returned [SStr "flood"; SStr "riot"; SStr "plague"] /\
  1 <= 2 <= Z.of_nat (length [SStr "flood"; SStr "riot"; SStr "plague"]) /\
  st_elements (shown (script_run false url_ABC 2 synced_world).1)
  = st_elements (shown synced_world)
    ++ [st_error msg_game_over_1; st_balloons; st_warning (msg_drawn (SStr "riot"));
        st_warning msg_finished].
Proof.
  split; [vm_compute; reflexivity|]. split; [vm_compute; reflexivity|].
  split; [vm_compute; reflexivity|]. split; [vm_compute; reflexivity|].
  split; [reflexivity|]. split; [cbn; lia|].
  destruct (script_run_panel false url_ABC 2 synced_world synced_world sample_sheet
              [SStr "flood"; SStr "riot"; SStr "plague"]
              (apply_edits [(2, Some 0); (5, Some 40)] default_data) default_data)
    as (chosen & Hchosen & ->);
    [vm_compute; reflexivity|vm_compute; reflexivity|vm_compute; reflexivity
    |vm_compute; reflexivity|reflexivity|cbn; lia|].
  cbn in Hchosen. injection Hchosen as <-. vm_compute. reflexivity.
Defined.

(** ** Splitting and the separator *)

Lemma split_second_iff_contains sep s :
  sep <> EmptyString ->
  PyStr.split sep s !! 1%nat = None <-> PyStr.contains sep s = false.
Proof.
  intros Hsep. split.
  - induction s as [|c s IH]; intros Hnone.
    + by destruct sep.
    + change (PyStr.contains sep (String c s))
        with (String.prefix sep (String c s) || PyStr.contains sep s).
      destruct (String.prefix sep (String c s)) eqn:Hp.
      * destruct (prefix_split _ _ Hp) as [t Ht]. rewrite Ht, split_match in Hnone by done.
        by destruct (split_cons sep t) as (piece & pieces & Hs); rewrite Hs in Hnone.
      * destruct (split_no_match sep c s Hp) as (piece & pieces & Hs & Hcs).
        rewrite Hcs in Hnone. cbn [orb]. apply IH. by rewrite Hs.
  - intros Habsent. by rewrite (split_absent_whole _ _ Habsent).
Qed.

(** X12.  A download takes place exactly when the URL contains
    [google.com] and contains [/d/]; in every other case the function
    returns [None] without touching the network. *)
Theorem load_downloads_iff_marker_and_d url w :
  exists evs data,
    load_data_from_gdrive url w = (shows evs w, Returned data) /\
    (downloads evs = [] <->
     PyStr.contains "google.com" url = false \/ PyStr.contains "/d/" url = false) /\
    (downloads evs = [] -> data = None).
Proof.
  destruct (PyStr.contains "google.com" url) eqn:Hhost.
  2: { eexists _, _. split; [by apply load_invalid_url|]. split; [|done].
       split; [by left|done]. }
  destruct (PyStr.split "/d/" url !! 1%nat) as [rest|] eqn:Hsplit.
  2: { eexists _, _. split; [by apply load_malformed_url|]. split; [|done].
       split; [|done]. intros _. right. by apply split_second_iff_contains. }
  assert (PyStr.contains "/d/" url = true) as Hd.
  { destruct (PyStr.contains "/d/" url) eqn:Hc; [done|].
    apply split_second_iff_contains in Hc; [congruence|done]. }
  destruct (net w (export_url_after_d rest)) as [msg|df] eqn:Hnet.
  { eexists _, _. split; [by eapply load_fetch_failed|]. split; [|done].
    split; [done|]. intros [?|?]; congruence. }
  destruct (df_columns df !! "imprevisto") as [series|] eqn:Hcol.
  - eexists _, _. split; [by eapply load_returns_sheet|]. split; [|done].
    split; [done|]. intros [?|?]; congruence.
  - eexists _, _. split; [by eapply load_missing_column|]. split; [|done].
    split; [done|]. intros [?|?]; congruence.
Qed.

Lemma join_head sep c piece pieces :
  join sep (String c piece :: pieces) = String c (join sep (piece :: pieces)).
Proof. by destruct pieces. Qed.

Lemma split_join_bounded sep n :
  sep <> EmptyString ->
  forall s, (String.length s <= n)%nat -> join sep (PyStr.split sep s) = s.
Proof.
  intros Hsep. induction n as [|n IH]; intros s Hlen.
  - destruct s; [reflexivity|cbn in Hlen; lia].
  - destruct s as [|c s]; [reflexivity|].
    destruct (String.prefix sep (String c s)) eqn:Hp.
    + destruct (prefix_split _ _ Hp) as [t Ht]. rewrite Ht, split_match by done.
      assert (String.length t <= n)%nat as Ht'.
      { apply (f_equal String.length) in Ht. rewrite string_app_length in Ht.
        destruct sep; [done|]. cbn in Ht, Hlen. lia. }
      pose proof (IH t Ht') as Hjoin.
      destruct (split_cons sep t) as (piece & pieces & Hs). rewrite Hs in *.
      change (join sep (EmptyString :: piece :: pieces))
        with (sep +:+ join sep (piece :: pieces)).
      by rewrite Hjoin.
    + destruct (split_no_match sep c s Hp) as (piece & pieces & Hs & ->).
      rewrite join_head, <- Hs. f_equal. apply IH. cbn in Hlen. lia.
Qed.

(** X13.  The split that the function relies on loses nothing: for a
    separator that is not empty, the pieces joined by the separator are
    the string again; and there is a second piece exactly when the
    separator occurs in the string, so [...split('/d/')[1]] raises
    exactly on a URL without [/d/]. *)
Theorem split_join_round_trip sep s :
  sep <> EmptyString ->
  join sep (PyStr.split sep s) = s /\
  (py_getitem (PyStr.split sep s) 1 = Raised (IndexError "list index out of range")
   <-> PyStr.contains sep s = false).
Proof.
  intros Hsep. split; [by eapply split_join_bounded|].
  rewrite <- split_second_iff_contains by done.
  rewrite py_getitem_nonneg by lia. change (Z.to_nat 1) with 1%nat.
  by destruct (PyStr.split sep s !! 1%nat).
Qed.

Lemma split_join_round_trip_witness :
  ("/d/"%string <> EmptyString) /\
  join "/d/" (PyStr.split "/d/" url_ABC) = url_ABC /\
  (py_getitem (PyStr.split "/d/" url_ABC) 1 = Raised (IndexError "list index out of range")
   <-> PyStr.contains "/d/" url_ABC = false).
Proof.
  split; [done|]. apply (split_join_round_trip "/d/" url_ABC). done.
Defined.

(** ** Well-formed worlds stay well-formed *)

Lemma session_ok_insert_team1 d t : session_ok d -> session_ok (<["team1_df" := VTeam t]> d).
Proof.
  intros (H1 & H2 & H3). split_and!; intros v.
  - rewrite lookup_insert_eq. intros [= <-]. eauto.
  - rewrite lookup_insert_ne by done. apply H2.
  - rewrite lookup_insert_ne by done. apply H3.
Qed.

Lemma session_ok_insert_team2 d t : session_ok d -> session_ok (<["team2_df" := VTeam t]> d).
Proof.
  intros (H1 & H2 & H3). split_and!; intros v.
  - rewrite lookup_insert_ne by done. apply H1.
  - rewrite lookup_insert_eq. intros [= <-]. eauto.
  - rewrite lookup_insert_ne by done. apply H3.
Qed.

Lemma session_ok_insert_catalog d data :
  (forall df, data = Some df -> has_events_column df) ->
  session_ok d -> session_ok (<["imprevisti_df" := VData data]> d).
Proof.
  intros Hdata (H1 & H2 & H3). split_and!; intros v.
  - rewrite lookup_insert_ne by done. apply H1.
  - rewrite lookup_insert_ne by done. apply H2.
  - rewrite lookup_insert_eq. intros [= <-]. eauto.
Qed.

Lemma session_ok_setdefault_team1 d : session_ok d -> session_ok (setdefault "team1_df" (VTeam default_data) d).
Proof.
  intros H. unfold setdefault. case_bool_decide; [done|]. by apply session_ok_insert_team1.
Qed.

Lemma session_ok_setdefault_team2 d : session_ok d -> session_ok (setdefault "team2_df" (VTeam default_data) d).
Proof.
  intros H. unfold setdefault. case_bool_decide; [done|]. by apply session_ok_insert_team2.
Qed.

Lemma session_ok_setdefault_catalog d : session_ok d -> session_ok (setdefault "imprevisti_df" (VData None) d).
Proof.
  intros H. unfold setdefault. case_bool_decide; [done|].
  by apply session_ok_insert_catalog.
Qed.

(** After [initialize_state] the three keys are there, well-formed. *)
Lemma initialize_state_ready w :
  world_ok w ->
  world_ok (initialize_state w).1 /\
  exists team1_df team2_df data,
    session_state (initialize_state w).1 !! "team1_df" = Some (VTeam team1_df) /\
    session_state (initialize_state w).1 !! "team2_df" = Some (VTeam team2_df) /\
    session_state (initialize_state w).1 !! "imprevisti_df" = Some (VData data).
Proof.
  intros [Hs Hc]. rewrite initialize_state_run. cbn [fst with_session session_state].
  set (d3 := setdefault "imprevisti_df" _ _).
  assert (session_ok d3) as Hok.
  { by apply session_ok_setdefault_catalog, session_ok_setdefault_team2,
      session_ok_setdefault_team1. }
  split; [by split|].
  destruct Hok as (H1 & H2 & H3).
  assert (is_Some (d3 !! "team1_df")) as [v1 Hv1].
  { subst d3. rewrite !setdefault_other by done. rewrite setdefault_lookup. eauto. }
  assert (is_Some (d3 !! "team2_df")) as [v2 Hv2].
  { subst d3. rewrite setdefault_other by done. rewrite setdefault_lookup. eauto. }
  assert (is_Some (d3 !! "imprevisti_df")) as [v3 Hv3].
  { subst d3. rewrite setdefault_lookup. eauto. }
  destruct (H1 _ Hv1) as [t1 ->]. destruct (H2 _ Hv2) as [t2 ->].
  destruct (H3 _ Hv3) as (data & -> & _). by exists t1, t2, data.
Qed.

(** The decorated function keeps the memo table well-formed and hands
    out only sheets with the column. *)
Lemma cached_load_ok url w :
  cache_ok (cache w) ->
  exists w1 data,
    load_data_from_gdrive_cached url w = (w1, Returned data) /\
    session_state w1 = session_state w /\
    cache_ok (cache w1) /\
    (forall df, data = Some df -> has_events_column df).
Proof.
  intros Hc.
  destruct (cached_load_cases url w)
    as [(entry & Hentry & _ & ->)|(_ & evs & data & Hload & ->)].
  - exists w, (ce_value entry). split_and!; [done..|]. intros df Hdf. by eapply Hc.
  - assert (forall df, data = Some df -> has_events_column df) as Hdata.
    { intros df ->. by eapply loaded_sheet_has_column. }
    eexists _, data. split_and!; [done..| |done].
    cbn [with_cache cache shows]. intros url' entry df.
    destruct (decide (url = url')) as [<-|Hne].
    + rewrite lookup_insert_eq. intros [= <-]. cbn [ce_value]. apply Hdata.
    + rewrite lookup_insert_ne by done. apply Hc.
Qed.

Lemma on_load_button_ok gdrive_url w :
  world_ok w ->
  exists w1,
    on_load_button gdrive_url w = (w1, Returned tt) /\
    world_ok w1 /\
    (forall key, key ≠ "imprevisti_df" -> session_state w1 !! key = session_state w !! key) /\
    (is_Some (session_state w !! "imprevisti_df") ->
     is_Some (session_state w1 !! "imprevisti_df")).
Proof.
  intros [Hs Hc]. unfold on_load_button. destruct (PyStr.truthy gdrive_url).
  2: { eexists. split; [reflexivity|]. by split_and!. }
  destruct (cached_load_ok gdrive_url w Hc) as (w1 & data & Hload & Hsess & Hc1 & Hdata).
  unfold bind at 1. rewrite Hload.
  assert (world_ok (with_session (insert "imprevisti_df" (VData data)) w1)) as Hok1.
  { split; [|done]. cbn [with_session session_state]. rewrite Hsess.
    by apply session_ok_insert_catalog. }
  destruct data as [df|].
  - unfold bind, set_session, emit. eexists. split; [reflexivity|].
    unfold with_shown. split_and!.
    + exact Hok1.
    + intros key Hkey. cbn [with_session session_state].
      by rewrite lookup_insert_ne, Hsess.
    + intros _. cbn [with_session session_state]. rewrite lookup_insert_eq. eauto.
  - unfold set_session. eexists. split; [reflexivity|]. split_and!.
    + exact Hok1.
    + intros key Hkey. cbn [with_session session_state].
      by rewrite lookup_insert_ne, Hsess.
    + intros _. cbn [with_session session_state]. rewrite lookup_insert_eq. eauto.
Qed.

Lemma world_ok_shows evs w : world_ok w -> world_ok (shows evs w).
Proof. done. Qed.

Lemma py_getitem_raises {A} (l : list A) i e :
  py_getitem l i = Raised e -> e = IndexError "list index out of range".
Proof. unfold py_getitem. intros H. repeat case_match; congruence. Qed.

(** X14.  From a well-formed world (tables under the team keys, [None]
    or a sheet with the column under the catalog key, only such sheets
    in the memo table; the empty session is one) a run of the script
    ends in a well-formed world, and it ends in one of three ways only:
    it returns, or it stops because the catalog has no event, or the
    draw raises IndexError because the number is outside the catalog.
    No KeyError, TypeError or AttributeError can come out of a run. *)
Theorem script_run_stays_well_formed clicked gdrive_url selected_event w :
  world_ok w ->
  world_ok (script_run clicked gdrive_url selected_event w).1 /\
  ((script_run clicked gdrive_url selected_event w).2 = Returned tt \/
   (script_run clicked gdrive_url selected_event w).2 = Raised StopException \/
   (script_run clicked gdrive_url selected_event w).2
   = Raised (IndexError "list index out of range")).
Proof.
  intros Hok.
  destruct (initialize_state_ready w Hok) as (Hok0 & t1 & t2 & data0 & H1 & H2 & H3).
  assert (exists w1,
             (if clicked then on_load_button gdrive_url else ret tt) (initialize_state w).1
             = (w1, Returned tt) /\
             world_ok w1 /\
             session_state w1 !! "team1_df" = Some (VTeam t1) /\
             session_state w1 !! "team2_df" = Some (VTeam t2) /\
             is_Some (session_state w1 !! "imprevisti_df")) as (w1 & Hstep & Hok1 & T1 & T2 & T3).
  { destruct clicked.
    - destruct (on_load_button_ok gdrive_url _ Hok0) as (w1 & Hrun & Hok1 & Hkeys & Hcat).
      exists w1. split_and!; [done..| | |].
      + by rewrite Hkeys.
      + by rewrite Hkeys.
      + apply Hcat. eauto.
    - eexists. split; [reflexivity|]. split_and!; eauto. }
  destruct (script_run clicked gdrive_url selected_event w) as [wf o] eqn:Hrun.
  cbn [fst snd]. revert Hrun.
  unfold script_run, bind at 1. rewrite initialize_state_returns.
  unfold bind at 1. rewrite Hstep. unfold bind at 1, get_session.
  destruct T3 as [held Hheld]. rewrite Hheld.
  destruct Hok1 as [Hs1 Hc1]. pose proof Hs1 as (_ & _ & Hcat).
  destruct (Hcat _ Hheld) as (data & -> & Hdata). destruct data as [df|].
  2: { intros [= <- <-]. split; [exact (conj Hs1 Hc1)|by left]. }
  unfold bind at 1. rewrite (game_over_check_run w1 t1 t2 T1 T2).
  set (shown_check := (if has_critical_factor t1 then _ else _) ++ _).
  destruct (Hdata df eq_refl) as [series Hcol].
  assert (event_list_of df = Returned (dropna_tolist series)) as Hlist.
  { unfold event_list_of, dict_getitem. by rewrite Hcol. }
  unfold bind at 1.
  destruct (dropna_tolist series) as [|e0 events] eqn:Hevents.
  - unfold draw_event, bind, get_session, lift. cbn [shows session_state].
    rewrite Hheld, Hlist. cbn [emit raise fst snd].
    intros [= <- <-]. split; [exact (conj Hs1 Hc1)|]. right. by left.
  - rewrite (draw_event_run _ df (e0 :: events) selected_event); [|done..].
    destruct (py_getitem (e0 :: events) (selected_event - 1)) as [x|e] eqn:Hget.
    + destruct (has_critical_factor t1 || has_critical_factor t2);
        intros [= <- <-]; (split; [exact (conj Hs1 Hc1)|by left]).
    + apply py_getitem_raises in Hget as ->.
      intros [= <- <-]. split; [exact (conj Hs1 Hc1)|]. right. by right.
Qed.

Lemma fresh_world_ok : world_ok fresh_world.
Proof.
  unfold world_ok, fresh_world. cbn [session_state cache].
  split; [split_and!; intros v H; by rewrite lookup_empty in H|].
  intros url entry df H. by rewrite lookup_empty in H.
Qed.

Lemma script_run_stays_well_formed_witness :
  world_ok fresh_world /\
  world_ok (script_run true url_ABC 2 fresh_world).1 /\
  ((script_run true url_ABC 2 fresh_world).2 = Returned tt \/
   (script_run true url_ABC 2 fresh_world).2 = Raised StopException \/
   (script_run true url_ABC 2 fresh_world).2 = Raised (IndexError "list index out of range")).
Proof.
  split; [apply fresh_world_ok|].
  apply (script_run_stays_well_formed true url_ABC 2 fresh_world). apply fresh_world_ok.
Defined.

Lemma session_ok_insert_other key v d :
  key ≠ "team1_df" -> key ≠ "team2_df" -> key ≠ "imprevisti_df" ->
  session_ok d -> session_ok (<[key := v]> d).
Proof.
  intros K1 K2 K3 (H1 & H2 & H3).
  split_and!; intros v'; rewrite lookup_insert_ne by done; eauto.
Qed.

Lemma sync_team_ok editor_key df_key w :
  (forall d t, session_ok d -> session_ok (<[df_key := VTeam t]> d)) ->
  world_ok w -> world_ok (sync_team editor_key df_key w).1.
Proof.
  intros Hins [Hs Hc]. unfold sync_team, bind at 1, get_session.
  destruct (session_state w !! editor_key) as [[| |ed]|] eqn:Hed; try done.
  destruct (session_state w !! df_key) as [held|] eqn:Hheld.
  1: destruct held as [df| |].
  1: { rewrite (sync_loop_any df_key _ w df Hheld). split; [|done].
       cbn [fst with_session session_state]. by apply Hins. }
  all: destruct (sync_loop_no_table df_key (default [] (edited_rows ed)) w) as [o ->];
    [intros tbl; congruence|done].
Qed.

(** X15.  The callbacks keep a well-formed world well-formed, for every
    state of the editors and in every outcome: under the team keys there
    are still tables, the catalog and the memo table are as they were. *)
Theorem sync_callbacks_stay_well_formed w :
  world_ok w ->
  world_ok (sync_team1 w).1 /\ world_ok (sync_team2 w).1 /\
  session_state (sync_team1 w).1 !! "imprevisti_df" = session_state w !! "imprevisti_df" /\
  session_state (sync_team2 w).1 !! "imprevisti_df" = session_state w !! "imprevisti_df" /\
  cache (sync_team1 w).1 = cache w /\ cache (sync_team2 w).1 = cache w.
Proof.
  intros Hok.
  assert (forall ek dk, dk ≠ "imprevisti_df" ->
            session_state (sync_team ek dk w).1 !! "imprevisti_df"
            = session_state w !! "imprevisti_df" /\
            cache (sync_team ek dk w).1 = cache w) as Hframe.
  { intros ek dk Hdk.
    destruct (sync_team ek dk w) as [wf o] eqn:Hrun. cbn [fst]. revert Hrun.
    unfold sync_team, bind at 1, get_session.
    destruct (session_state w !! ek) as [[| |ed]|] eqn:Hed;
      try (intros [= <- <-]; split; reflexivity).
    destruct (session_state w !! dk) as [held|] eqn:Hheld.
    1: destruct held as [tbl| |].
    1: { rewrite (sync_loop_any dk _ w tbl Hheld). intros [= <- <-].
         cbn [with_session session_state cache]. by rewrite lookup_insert_ne. }
    all: destruct (sync_loop_no_table dk (default [] (edited_rows ed)) w) as [o' ->];
      [intros tbl; congruence|intros [= <- <-]; split; reflexivity]. }
  destruct (Hframe "editor_team1" "team1_df") as [F1 C1]; [done|].
  destruct (Hframe "editor_team2" "team2_df") as [F2 C2]; [done|].
  split_and!; [| |done..].
  - apply sync_team_ok; [|done]. intros d t. apply session_ok_insert_team1.
  - apply sync_team_ok; [|done]. intros d t. apply session_ok_insert_team2.
Qed.

Lemma started_world_ok : world_ok started_world.
Proof.
  destruct (initialize_state_ready fresh_world fresh_world_ok) as [[Hs Hc] _].
  split; [|exact Hc]. unfold started_world. cbn [with_session session_state].
  by apply session_ok_insert_other.
Qed.

Lemma sync_callbacks_stay_well_formed_witness :
  world_ok started_world /\
  world_ok (sync_team1 started_world).1 /\ world_ok (sync_team2 started_world).1 /\
  session_state (sync_team1 started_world).1 !! "imprevisti_df"
  = session_state started_world !! "imprevisti_df" /\
  session_state (sync_team2 started_world).1 !! "imprevisti_df"
  = session_state started_world !! "imprevisti_df" /\
  cache (sync_team1 started_world).1 = cache started_world /\
  cache (sync_team2 started_world).1 = cache started_world.
Proof.
  split; [apply started_world_ok|].
  apply (sync_callbacks_stay_well_formed started_world). apply started_world_ok.
Defined.
